(** * Ollama chat assistant: session lifecycle, prompt assembly, persistence

    A shallow embedding of [main.py]: the [ChatManager] class
    ([generate_response], [save_chat_history], [load_chat_histories]) and
    the two views of [main], together with the parts of the Python
    library they call ([str] operations, [json.dump] / [json.load],
    [strftime], [os.listdir], [sorted]).

    Python values are modelled as follows.
    - [str] is a sequence of Unicode code points: [text := list N].
    - a message dict [{"role": r, "content": c}] is a record; the session
      (a Python list of such dicts) is a [list message].
    - the directory [chat_histories] is an association list from file names
      to file contents, in the order [os.listdir] reports them.
    - effects (the directory, [st.session_state], the outbound model call,
      [st.error]) are threaded through a state-and-exception monad; of the
      calls that only draw the page, those of the previous chats view are
      kept as the list of what is drawn, the others are left out.
    - the clock and the language model are inputs: [datetime.now()] is a
      parameter of [save_chat_history], and the model is a function of the
      prompts it has received. *)

From Stdlib Require Import String Ascii.
From Stdlib Require Import List NArith ZArith Lia Bool.
From Stdlib Require Import Permutation Sorted.
Import ListNotations.

Ltac Zify.zify_post_hook ::= Z.to_euclidean_division_equations.

Open Scope N_scope.

(* ================================================================== *)
(** * Python [str] *)

Module Py.

(** A Python string: its code points, in order. *)
Definition text : Type := list N.

(** [ord] of an ASCII character. *)
Definition ord (a : ascii) : N := N_of_ascii a.
Arguments ord a%_char.

(** An ASCII string literal. *)
Definition str (s : string) : text := map N_of_ascii (list_ascii_of_string s).

(** [a == b] on strings. *)
Fixpoint text_eqb (a b : text) : bool :=
  match a, b with
  | [], [] => true
  | x :: a', y :: b' => (x =? y) && text_eqb a' b'
  | _, _ => false
  end.

(** [a <= b] on strings: lexicographic on code points, a proper prefix
    being smaller. *)
Fixpoint text_leb (a b : text) : bool :=
  match a, b with
  | [], _ => true
  | _ :: _, [] => false
  | x :: a', y :: b' => if x <? y then true else if y <? x then false else text_leb a' b'
  end.

(** [s.startswith(p)], returning the remainder when it does. *)
Fixpoint strip_prefix (p s : text) : option text :=
  match p, s with
  | [], _ => Some s
  | _ :: _, [] => None
  | x :: p', y :: s' => if x =? y then strip_prefix p' s' else None
  end.

(** [s.endswith(suffix)]. *)
Definition endswith (s suffix : text) : bool :=
  (length suffix <=? length s)%nat
  && text_eqb (skipn (length s - length suffix) s) suffix.

(** [sep.join(parts)]. *)
Fixpoint join (sep : text) (parts : list text) : text :=
  match parts with
  | [] => []
  | [p] => p
  | p :: rest => p ++ sep ++ join sep rest
  end.

(** Truth value of [x] where [x] is [None] or a [str]: only a non-empty
    string is true. *)
Definition truthy (x : option text) : bool :=
  match x with
  | Some (_ :: _) => true
  | _ => false
  end.

(** [needle in haystack]: [needle] occurs verbatim inside [haystack]. *)
Definition occurs_in (needle haystack : text) : Prop :=
  exists before after, haystack = before ++ needle ++ after.

End Py.
Import Py.

(* ================================================================== *)
(** * The [json] module *)

Module Json.

(** JSON documents as Python sees them. A number keeps its literal (the
    [int]/[float] distinction and float rounding play no role here); an
    object is a [dict]: keys in insertion order, no key twice. *)
#[warnings="-register-all"]
Inductive json : Type :=
| JNull
| JBool (b : bool)
| JNumber (literal : text)
| JString (s : text)
| JArray (items : list json)
| JObject (members : list (text * json)).

(** ** Encoder: [json.dump(obj, f, indent=4)], [ensure_ascii] left on *)

Definition hexdigit (d : N) : N := if d <? 10 then 48 + d else 87 + d.

(** ['\\u{0:04x}'.format(n)] *)
Definition u_escape (n : N) : text :=
  [92; 117; hexdigit (n / 4096); hexdigit ((n / 256) mod 16);
   hexdigit ((n / 16) mod 16); hexdigit (n mod 16)].

(** The replacement of one character by [py_encode_basestring_ascii]:
    characters from space to tilde other than the quote and the backslash
    stay; the short escapes of [ESCAPE_DCT]; [\uXXXX] otherwise, as a
    surrogate pair above the basic plane. *)
Definition escape_char (c : N) : text :=
  if c =? 34 then [92; 34]
  else if c =? 92 then [92; 92]
  else if (32 <=? c) && (c <=? 126) then [c]
  else if c =? 10 then [92; ord "n"]
  else if c =? 13 then [92; ord "r"]
  else if c =? 9 then [92; ord "t"]
  else if c =? 8 then [92; ord "b"]
  else if c =? 12 then [92; ord "f"]
  else if c <? 65536 then u_escape c
  else
    let n := c - 65536 in
    let s1 := N.lor 55296 (N.land (N.shiftr n 10) 1023) in
    let s2 := N.lor 56320 (N.land n 1023) in
    u_escape s1 ++ u_escape s2.

Definition escape (s : text) : text := flat_map escape_char s.

Definition encode_basestring_ascii (s : text) : text := [34] ++ escape s ++ [34].

(** ['\n' + ' ' * (4 * level)] *)
Definition newline_indent (level : nat) : text := 10 :: repeat 32 (4 * level)%nat.

(** [_iterencode] at nesting depth [level], all chunks concatenated. *)
Fixpoint encode (level : nat) (v : json) : text :=
  match v with
  | JNull => str "null"
  | JBool true => str "true"
  | JBool false => str "false"
  | JNumber literal => literal
  | JString s => encode_basestring_ascii s
  | JArray [] => str "[]"
  | JArray items =>
      let nl := newline_indent (S level) in
      str "[" ++ nl ++ join (str "," ++ nl) (map (encode (S level)) items)
        ++ newline_indent level ++ str "]"
  | JObject [] => str "{}"
  | JObject members =>
      let nl := newline_indent (S level) in
      str "{" ++ nl
        ++ join (str "," ++ nl)
             (map (fun kv => encode_basestring_ascii (fst kv) ++ str ": "
                               ++ encode (S level) (snd kv)) members)
        ++ newline_indent level ++ str "}"
  end.

Definition dumps (v : json) : text := encode 0 v.

(** ** Decoder: [json.load(f)] on the text of the file *)

Fixpoint skip_ws (s : text) : text :=
  match s with
  | c :: s' => if (c =? 32) || (c =? 9) || (c =? 10) || (c =? 13) then skip_ws s' else s
  | [] => []
  end.

Definition hexval (c : N) : option N :=
  if (48 <=? c) && (c <=? 57) then Some (c - 48)
  else if (97 <=? c) && (c <=? 102) then Some (c - 87)
  else if (65 <=? c) && (c <=? 70) then Some (c - 55)
  else None.

(** [int(esc, 16)] of the four characters after [\u]. *)
Definition hex4 (a b c d : N) : option N :=
  match hexval a, hexval b, hexval c, hexval d with
  | Some x3, Some x2, Some x1, Some x0 => Some (((x3 * 16 + x2) * 16 + x1) * 16 + x0)
  | _, _, _, _ => None
  end.

(** The [BACKSLASH] table of the decoder. *)
Definition unescape (e : N) : option N :=
  if e =? 34 then Some 34
  else if e =? 92 then Some 92
  else if e =? 47 then Some 47
  else if e =? ord "b" then Some 8
  else if e =? ord "f" then Some 12
  else if e =? ord "n" then Some 10
  else if e =? ord "r" then Some 13
  else if e =? ord "t" then Some 9
  else None.

Definition is_high_surrogate (u : N) : bool := (55296 <=? u) && (u <=? 56319).
Definition is_low_surrogate (u : N) : bool := (56320 <=? u) && (u <=? 57343).

Definition join_surrogates (hi lo : N) : N :=
  65536 + N.lor (N.shiftl (hi - 55296) 10) (lo - 56320).

Definition emit (c : N) (r : option (text * text)) : option (text * text) :=
  match r with
  | Some (t, rest) => Some (c :: t, rest)
  | None => None
  end.

(** [scanstring] (strict): [s] starts just after the opening quote; the
    result is the decoded string and what follows the closing quote. *)
Fixpoint scanstring (s : text) : option (text * text) :=
  match s with
  | [] => None
  | c :: s1 =>
    if c =? 34 then Some ([], s1)
    else if c =? 92 then
      match s1 with
      | [] => None
      | e :: s2 =>
        if e =? 117 then
          match s2 with
          | a :: b :: c' :: d :: s3 =>
            match hex4 a b c' d with
            | None => None
            | Some uni =>
              let single := emit uni (scanstring s3) in
              if is_high_surrogate uni then
                match s3 with
                | b1 :: u1 :: a2 :: b2 :: c2 :: d2 :: s4 =>
                  if (b1 =? 92) && (u1 =? 117) then
                    match hex4 a2 b2 c2 d2 with
                    | None => None
                    | Some uni2 =>
                      if is_low_surrogate uni2
                      then emit (join_surrogates uni uni2) (scanstring s4)
                      else single
                    end
                  else single
                | _ => single
                end
              else single
            end
          | _ => None
          end
        else
          match unescape e with
          | Some x => emit x (scanstring s2)
          | None => None
          end
      end
    else if c <? 32 then None
    else emit c (scanstring s1)
  end.

Definition is_digit (c : N) : bool := (48 <=? c) && (c <=? 57).

Fixpoint span_digits (s : text) : text * text :=
  match s with
  | c :: s' =>
    if is_digit c then (let (ds, r) := span_digits s' in (c :: ds, r)) else ([], s)
  | [] => ([], [])
  end.

(** [NUMBER_RE]: an optional minus sign, then a zero or a digit string
    without leading zero; optionally a dot and one or more digits; optionally
    [e] or [E], an optional sign and one or more digits. The longest match is
    the literal; what follows it is the rest. *)
Definition scan_int (s : text) : option (text * text) :=
  match s with
  | c :: s' =>
    if c =? 48 then Some ([c], s')
    else if is_digit c then (let (ds, r) := span_digits s' in Some (c :: ds, r))
    else None
  | [] => None
  end.

Definition scan_frac (s : text) : text * text :=
  match s with
  | c :: s' =>
    if c =? 46 then
      match span_digits s' with
      | ([], _) => ([], s)
      | (ds, r) => (c :: ds, r)
      end
    else ([], s)
  | [] => ([], s)
  end.

Definition scan_exp (s : text) : text * text :=
  match s with
  | e :: s' =>
    if (e =? ord "e") || (e =? ord "E") then
      let (sign, s'') :=
        match s' with
        | g :: t => if (g =? 45) || (g =? 43) then ([g], t) else ([], s')
        | [] => ([], s')
        end in
      match span_digits s'' with
      | ([], _) => ([], s)
      | (ds, r) => (e :: sign ++ ds, r)
      end
    else ([], s)
  | [] => ([], s)
  end.

Definition scan_number (s : text) : option (text * text) :=
  let (sign, s0) :=
    match s with
    | c :: s' => if c =? 45 then ([c], s') else ([], s)
    | [] => ([], s)
    end in
  match scan_int s0 with
  | None => None
  | Some (int, s1) =>
    let (frac, s2) := scan_frac s1 in
    let (exp, s3) := scan_exp s2 in
    Some (sign ++ int ++ frac ++ exp, s3)
  end.

(** [d[k] = v] on a dict kept in insertion order. *)
Fixpoint dict_set (d : list (text * json)) (k : text) (v : json) : list (text * json) :=
  match d with
  | [] => [(k, v)]
  | (k', v') :: d' => if text_eqb k' k then (k, v) :: d' else (k', v') :: dict_set d' k v
  end.

(** [dict(pairs)] *)
Definition dict_of_pairs (pairs : list (text * json)) : list (text * json) :=
  fold_left (fun d kv => dict_set d (fst kv) (snd kv)) pairs [].

(** Outcome of a scanning function: a value and the unread rest, a
    [JSONDecodeError], or recursion budget exhausted. *)
Inductive scan (A : Type) : Type :=
| Parsed (v : A) (rest : text)
| Invalid
| OutOfFuel.
Arguments Parsed {A} v rest.
Arguments Invalid {A}.
Arguments OutOfFuel {A}.

Definition literal_or (lit : string) (v : json) (s : text) (otherwise : scan json) : scan json :=
  match strip_prefix (str lit) s with
  | Some rest => Parsed v rest
  | None => otherwise
  end.

(** [scan_once], [JSONArray] and [JSONObject]. [array_items] starts at the
    first character of an element; [object_members] starts just after the
    opening quote of a key. *)
Fixpoint scan_once (fuel : nat) (s : text) {struct fuel} : scan json :=
  match fuel with
  | O => OutOfFuel
  | S fuel' =>
    match s with
    | [] => Invalid
    | c :: s' =>
      if c =? 34 then
        match scanstring s' with
        | Some (t, rest) => Parsed (JString t) rest
        | None => Invalid
        end
      else if c =? ord "{" then
        match skip_ws s' with
        | c1 :: s1 =>
          if c1 =? ord "}" then Parsed (JObject []) s1
          else if c1 =? 34 then
            match object_members fuel' s1 with
            | Parsed pairs rest => Parsed (JObject (dict_of_pairs pairs)) rest
            | Invalid => Invalid
            | OutOfFuel => OutOfFuel
            end
          else Invalid
        | [] => Invalid
        end
      else if c =? ord "[" then
        match skip_ws s' with
        | c1 :: s1 =>
          if c1 =? ord "]" then Parsed (JArray []) s1
          else
            match array_items fuel' (c1 :: s1) with
            | Parsed items rest => Parsed (JArray items) rest
            | Invalid => Invalid
            | OutOfFuel => OutOfFuel
            end
        | [] => Invalid
        end
      else
        literal_or "null" JNull s
       (literal_or "true" (JBool true) s
       (literal_or "false" (JBool false) s
         match scan_number s with
         | Some (literal, rest) => Parsed (JNumber literal) rest
         | None =>
           literal_or "NaN" (JNumber (str "NaN")) s
          (literal_or "Infinity" (JNumber (str "Infinity")) s
          (literal_or "-Infinity" (JNumber (str "-Infinity")) s Invalid))
         end))
    end
  end

with array_items (fuel : nat) (s : text) {struct fuel} : scan (list json) :=
  match fuel with
  | O => OutOfFuel
  | S fuel' =>
    match scan_once fuel' s with
    | Parsed v r =>
      match skip_ws r with
      | c :: r1 =>
        if c =? ord "]" then Parsed [v] r1
        else if c =? ord "," then
          match array_items fuel' (skip_ws r1) with
          | Parsed vs rest => Parsed (v :: vs) rest
          | Invalid => Invalid
          | OutOfFuel => OutOfFuel
          end
        else Invalid
      | [] => Invalid
      end
    | Invalid => Invalid
    | OutOfFuel => OutOfFuel
    end
  end

with object_members (fuel : nat) (s : text) {struct fuel} : scan (list (text * json)) :=
  match fuel with
  | O => OutOfFuel
  | S fuel' =>
    match scanstring s with
    | None => Invalid
    | Some (key, r) =>
      match skip_ws r with
      | c :: r1 =>
        if c =? ord ":" then
          match scan_once fuel' (skip_ws r1) with
          | Parsed v r2 =>
            match skip_ws r2 with
            | c2 :: r3 =>
              if c2 =? ord "}" then Parsed [(key, v)] r3
              else if c2 =? ord "," then
                match skip_ws r3 with
                | c3 :: r4 =>
                  if c3 =? 34 then
                    match object_members fuel' r4 with
                    | Parsed ms rest => Parsed ((key, v) :: ms) rest
                    | Invalid => Invalid
                    | OutOfFuel => OutOfFuel
                    end
                  else Invalid
                | [] => Invalid
                end
              else Invalid
            | [] => Invalid
            end
          | Invalid => Invalid
          | OutOfFuel => OutOfFuel
          end
        else Invalid
      | [] => Invalid
      end
    end
  end.

(** The recursion budget [raw_decode] is run with: two units per
    character, which [scan_fuel] below shows is never used up. *)
Definition budget (s : text) : nat := (2 * length s + 1)%nat.

(** [json.loads(s)]: leading white space, one value, trailing white space,
    end of text. [None] is [JSONDecodeError]. *)
Definition loads (s : text) : option json :=
  match scan_once (budget s) (skip_ws s) with
  | Parsed v rest =>
    match skip_ws rest with
    | [] => Some v
    | _ :: _ => None
    end
  | _ => None
  end.

End Json.
Import Json.

(* ================================================================== *)
(** * [datetime] *)

Module Datetime.

(** A [datetime] value with the fields [strftime] reads. Python keeps
    [1 <= year <= 9999], [1 <= month <= 12], [hour < 24], ... *)
Record datetime : Type := {
  year : N; month : N; day : N;
  hour : N; minute : N; second : N;
  microsecond : N
}.

Definition digit (d : N) : N := 48 + d mod 10.

(** [%m], [%d], [%H], [%M], [%S]: two digits, zero padded. *)
Definition pad2 (n : N) : text := [digit (n / 10); digit n].

(** [%Y]: the year as a decimal number. [strftime] hands the format to
    the C library, which does not pad the year (glibc): year 999 gives
    three digits. A [datetime] has [1 <= year <= 9999], so the number has
    one to four digits, and four from year 1000 on. *)
Definition year_digits (n : N) : text :=
  if n <? 10 then [digit n]
  else if n <? 100 then [digit (n / 10); digit n]
  else if n <? 1000 then [digit (n / 100); digit (n / 10); digit n]
  else [digit (n / 1000); digit (n / 100); digit (n / 10); digit n].

(** [t.strftime("%Y%m%d_%H%M%S")] *)
Definition strftime_Ymd_HMS (t : datetime) : text :=
  year_digits (year t) ++ pad2 (month t) ++ pad2 (day t) ++ str "_"
    ++ pad2 (hour t) ++ pad2 (minute t) ++ pad2 (second t).

(** Two instants within the same wall-clock second. *)
Definition same_second (a b : datetime) : Prop :=
  year a = year b /\ month a = month b /\ day a = day b /\
  hour a = hour b /\ minute a = minute b /\ second a = second b.

End Datetime.
Import Datetime.

(* ================================================================== *)
(** * The directory [chat_histories] *)

Module Fs.

(** The entries of the directory, in the order [os.listdir] yields them
    (which the operating system chooses): file name and file text. Only
    regular, readable text files are modelled. *)
Definition directory : Type := list (text * text).

Definition listdir (d : directory) : list text := map fst d.

Fixpoint read_file (d : directory) (name : text) : option text :=
  match d with
  | [] => None
  | (n, c) :: d' => if text_eqb n name then Some c else read_file d' name
  end.

(** Create the file, or truncate and rewrite it when it exists. *)
Fixpoint write_file (d : directory) (name content : text) : directory :=
  match d with
  | [] => [(name, content)]
  | (n, c) :: d' =>
    if text_eqb n name then (n, content) :: d' else (n, c) :: write_file d' name content
  end.

(** [os.path.join(a, b)] on POSIX. *)
Definition path_join (a b : text) : text :=
  match b with
  | 47 :: _ => b
  | _ => if match a with [] => true | _ => endswith a (str "/") end
         then a ++ b else a ++ str "/" ++ b
  end.

(** The file name a relative path denotes when it names an entry of
    directory [dir]. *)
Definition entry_of_path (dir path : text) : option text :=
  match strip_prefix (dir ++ str "/") path with
  | Some name => if existsb (N.eqb 47) name then None else Some name
  | None => None
  end.

End Fs.
Import Fs.

(* ================================================================== *)
(** * State, exceptions and the monad the program runs in *)

(** What [self.chain.invoke] does when called: return the model's text, or
    raise an [Exception] [e], kept as [str(e)]. (An interrupt of the
    process, which is no [Exception], is outside this model.) *)
Inductive outcome : Type :=
| Returned (result : text)
| Raised (e : text).

(** One call of [self.chain.invoke]: the two inputs and the prompt the
    template made of them, which is what the model received. *)
Record invocation : Type := {
  inv_context : text;
  inv_question : text;
  inv_prompt : text
}.

(** Exceptions that propagate out of [ChatManager]. *)
Inductive exn : Type :=
| JSONDecodeError (path : text)
| FileNotFoundError (path : text).

(** A message dict [{"role": ..., "content": ...}]. *)
Record message : Type := {
  role : text;
  content : text
}.

(** The session: the Python list [st.session_state.messages]. *)
Definition session : Type := list message.

Record world : Type := {
  chat_histories : directory;        (* the directory CHAT_HISTORY_DIR *)
  messages : option session;         (* st.session_state.messages, None while
                                        the key is absent *)
  chain_calls : list invocation;     (* calls of self.chain.invoke so far *)
  st_errors : list text;             (* texts shown with st.error so far *)
  opened : list text                 (* paths passed to open(), oldest first *)
}.

Inductive result (A : Type) : Type :=
| Ok (a : A)
| Raise (e : exn).
Arguments Ok {A} a.
Arguments Raise {A} e.

Definition IO (A : Type) : Type := world -> result A * world.

Definition ret {A} (a : A) : IO A := fun w => (Ok a, w).

Definition bind {A B} (m : IO A) (k : A -> IO B) : IO B :=
  fun w =>
    match m w with
    | (Ok a, w') => k a w'
    | (Raise e, w') => (Raise e, w')
    end.

Definition raise {A} (e : exn) : IO A := fun w => (Raise e, w).

Declare Scope io_scope.
Delimit Scope io_scope with io.
Notation "x <- m ;; k" := (bind m (fun x => k))
  (at level 61, m at next level, right associativity) : io_scope.
Notation "m ;; k" := (bind m (fun _ => k))
  (at level 61, right associativity) : io_scope.
Open Scope io_scope.

Definition value_of {A} (r : result A * world) : result A := fst r.
Definition world_of {A} (r : result A * world) : world := snd r.

(** ** Primitive effects *)

Definition CHAT_HISTORY_DIR : text := str "chat_histories".

Definition set_chat_histories (d : directory) (w : world) : world :=
  {| chat_histories := d; messages := messages w; chain_calls := chain_calls w;
     st_errors := st_errors w; opened := opened w |}.

Definition set_messages (m : option session) (w : world) : world :=
  {| chat_histories := chat_histories w; messages := m; chain_calls := chain_calls w;
     st_errors := st_errors w; opened := opened w |}.

Definition log_chain_call (c : invocation) (w : world) : world :=
  {| chat_histories := chat_histories w; messages := messages w;
     chain_calls := chain_calls w ++ [c];
     st_errors := st_errors w; opened := opened w |}.

Definition log_st_error (msg : text) (w : world) : world :=
  {| chat_histories := chat_histories w; messages := messages w;
     chain_calls := chain_calls w;
     st_errors := st_errors w ++ [msg]; opened := opened w |}.

Definition log_opened (paths : list text) (w : world) : world :=
  {| chat_histories := chat_histories w; messages := messages w;
     chain_calls := chain_calls w;
     st_errors := st_errors w; opened := opened w ++ paths |}.

(** [os.listdir(CHAT_HISTORY_DIR)] *)
Definition os_listdir : IO (list text) :=
  fun w => (Ok (listdir (chat_histories w)), w).

(** [with open(path, 'r') as f: f.read()] *)
Definition open_read (path : text) : IO text :=
  fun w =>
    let w' := log_opened [path] w in
    match entry_of_path CHAT_HISTORY_DIR path with
    | Some name =>
      match read_file (chat_histories w) name with
      | Some c => (Ok c, w')
      | None => (Raise (FileNotFoundError path), w')
      end
    | None => (Raise (FileNotFoundError path), w')
    end.

(** [with open(path, 'w') as f: f.write(contents)] *)
Definition open_write (path contents : text) : IO unit :=
  fun w =>
    let w' := log_opened [path] w in
    match entry_of_path CHAT_HISTORY_DIR path with
    | Some name =>
      (Ok tt, set_chat_histories (write_file (chat_histories w) name contents) w')
    | None => (Raise (FileNotFoundError path), w')
    end.

(** [st.error(msg)] *)
Definition st_error (msg : text) : IO unit :=
  fun w => (Ok tt, log_st_error msg w).

(** [if 'messages' not in st.session_state: st.session_state.messages = []] *)
Definition init_messages : IO unit :=
  fun w =>
    match messages w with
    | Some _ => (Ok tt, w)
    | None => (Ok tt, set_messages (Some []) w)
    end.

(** The list behind [st.session_state.messages]. *)
Definition session_of (w : world) : session :=
  match messages w with
  | Some l => l
  | None => []
  end.

Definition get_messages : IO session := fun w => (Ok (session_of w), w).

(** [st.session_state.messages.append(m)] *)
Definition append_message (m : message) : IO unit :=
  fun w => (Ok tt, set_messages (Some (session_of w ++ [m])) w).

(** The session as the value [json.dump] is given, and as the value
    [json.load] gives back. *)
Definition json_of_message (m : message) : json :=
  JObject [(str "role", JString (role m)); (str "content", JString (content m))].

Definition json_of_session (s : session) : json := JArray (map json_of_message s).

(** [json.load(f)] for the file opened at [path] *)
Definition json_load (path contents : text) : IO json :=
  match loads contents with
  | Some v => ret v
  | None => raise (JSONDecodeError path)
  end.

(* ================================================================== *)
(** * [class ChatManager] *)

(** An entry of the list [load_chat_histories] returns:
    [{'filename': ..., 'data': ...}]. *)
Record history_entry : Type := {
  filename : text;
  data : json
}.

(** [sorted(l, key=lambda x: x['filename'], reverse=True)]: stable, so
    an entry goes in front of the entries whose key is not greater. *)
Fixpoint insert_desc (x : history_entry) (l : list history_entry) : list history_entry :=
  match l with
  | [] => [x]
  | y :: r =>
    if text_leb (filename y) (filename x) then x :: y :: r else y :: insert_desc x r
  end.

Definition sorted_by_filename_desc (l : list history_entry) : list history_entry :=
  fold_right insert_desc [] l.

Module ChatManager.
Section WithModel.

(** The language model behind the chain: what a call does, given the
    prompts it received before and the prompt it receives now. *)
Variable llm : list text -> text -> outcome.

(** The text of [template], cut at its two slots. *)
Definition template_head : text :=
  [10] ++ str "        You are a helpful AI assistant. " ++ [10]
    ++ str "        Conversation History: ".
Definition template_middle : text :=
  [10] ++ str "        " ++ [10]
    ++ str "        Answer the following question based on the context:" ++ [10]
    ++ str "        Question: ".
Definition template_tail : text :=
  [10] ++ str "        " ++ [10] ++ str "        Helpful Answer:".

(** [self.prompt.format(context=context, question=question)] *)
Definition prompt_format (context question : text) : text :=
  template_head ++ context ++ template_middle ++ question ++ template_tail.

(** [self.chain.invoke({"context": context, "question": question})] with
    [self.chain = self.prompt | self.model | self.output_parser]: the
    template is filled, the model is called on the prompt, and the parser
    hands its text on. Whatever the model raises is the outcome. *)
Definition chain_invoke (context question : text) : IO outcome :=
  fun w =>
    let prompt := prompt_format context question in
    (Ok (llm (map inv_prompt (chain_calls w)) prompt),
     log_chain_call {| inv_context := context; inv_question := question;
                       inv_prompt := prompt |} w).

Definition FALLBACK : text :=
  str "I'm sorry, but I encountered an error while processing your request.".

(** [def generate_response(self, context, user_input)] *)
Definition generate_response (context user_input : text) : IO text :=
  attempt <- chain_invoke context user_input ;;
  match attempt with
  | Returned result => ret result
  | Raised e =>
    st_error (str "Error generating response: " ++ e) ;;
    ret FALLBACK
  end.

(** [def save_chat_history(self, chat_history)]; [now] is what
    [datetime.now()] returns. *)
Definition save_chat_history (now : datetime) (chat_history : session) : IO text :=
  let timestamp := strftime_Ymd_HMS now in
  let filename := path_join CHAT_HISTORY_DIR (str "chat_" ++ timestamp ++ str ".json") in
  open_write filename (dumps (json_of_session chat_history)) ;;
  ret filename.

(** The body of the [for] loop of [load_chat_histories], the list under
    construction being [acc]. *)
Fixpoint load_loop (names : list text) (acc : list history_entry)
  : IO (list history_entry) :=
  match names with
  | [] => ret acc
  | filename :: rest =>
    if endswith filename (str ".json") then
      let filepath := path_join CHAT_HISTORY_DIR filename in
      contents <- open_read filepath ;;
      d <- json_load filepath contents ;;
      load_loop rest (acc ++ [{| filename := filename; data := d |}])
    else load_loop rest acc
  end.

(** [def load_chat_histories(self)] *)
Definition load_chat_histories : IO (list history_entry) :=
  names <- os_listdir ;;
  chat_histories <- load_loop names [] ;;
  ret (sorted_by_filename_desc chat_histories).

End WithModel.
End ChatManager.
Import ChatManager.

(* ================================================================== *)
(** * [main] *)

Module Main.
Section WithModel.

Variable llm : list text -> text -> outcome.

(** What the page delivers to one run of the script: the view chosen in
    the sidebar, the value of [st.chat_input] ([None] when nothing was
    submitted), the value of the button, and the clock. *)
Record ui : Type := {
  previous_chats : bool;
  chat_input : option text;
  save_button : bool;
  clock : datetime
}.

(** One line of the context: ["User: ..."] for a user message,
    ["AI: ..."] for any other. *)
Definition context_line (msg : message) : text :=
  if text_eqb (role msg) (str "user")
  then str "User: " ++ content msg
  else str "AI: " ++ content msg.

(** ["\n".join([... for msg in st.session_state.messages])] *)
Definition build_context (msgs : session) : text :=
  join [10] (map context_line msgs).

(** The branch of [main] for "Current Chat". The calls that only draw
    ([st.chat_message], [st.markdown], [st.success]) are left out. *)
Definition current_chat (page : ui) : IO unit :=
  init_messages ;;
  if truthy (chat_input page) then
    let prompt := match chat_input page with Some p => p | None => [] end in
    append_message {| role := str "user"; content := prompt |} ;;
    msgs <- get_messages ;;
    let context := build_context msgs in
    response <- generate_response llm context prompt ;;
    append_message {| role := str "assistant"; content := response |} ;;
    if save_button page then
      msgs' <- get_messages ;;
      save_chat_history (clock page) msgs' ;;
      ret tt
    else ret tt
  else ret tt.

(** The branch of [main] for "Previous Chats": the histories are loaded
    and one of them is drawn. *)
Definition previous_chats_view : IO unit :=
  load_chat_histories ;;
  ret tt.

(** [def main()] *)
Definition main (page : ui) : IO unit :=
  if previous_chats page then previous_chats_view else current_chat page.

(** The chat loop: the script run once per submitted input, on the
    "Current Chat" view, the button not pressed. *)
Definition turn (now : datetime) (input : text) : IO unit :=
  main {| previous_chats := false; chat_input := Some input;
          save_button := false; clock := now |}.

Fixpoint chat_loop (now : datetime) (inputs : list text) : IO unit :=
  match inputs with
  | [] => ret tt
  | input :: rest => turn now input ;; chat_loop now rest
  end.

End WithModel.
End Main.
Import Main.

(** A fresh process: empty directory or not, nothing in the session state
    and nothing logged. *)
Definition fresh (d : directory) : world :=
  {| chat_histories := d; messages := None; chain_calls := [];
     st_errors := []; opened := [] |}.

(* ================================================================== *)
(** * Vocabulary of the statements *)

Definition user_message (p : text) : message := {| role := str "user"; content := p |}.

Definition assistant_message (p : text) : message :=
  {| role := str "assistant"; content := p |}.

(** The number of inputs the chat loop processes: the non-empty ones. *)
Definition processed (inputs : list text) : nat :=
  length (filter (fun i => truthy (Some i)) inputs).

(** An instant as a number of the form YYYYMMDDHHMMSS, which orders
    instants as the calendar does. *)
Definition calendar_key (t : datetime) : N :=
  ((((year t * 100 + month t) * 100 + day t) * 100 + hour t) * 100 + minute t) * 100
  + second t.

(** The fields of an instant are within what two and four digits hold. *)
Definition in_range (t : datetime) : Prop :=
  year t < 10000 /\ month t < 100 /\ day t < 100
  /\ hour t < 100 /\ minute t < 100 /\ second t < 100.

(** The number a text of decimal digits writes, read from the left;
    nothing when a character is no digit. *)
Fixpoint digits_value (acc : N) (s : text) : option N :=
  match s with
  | [] => Some acc
  | c :: s' =>
    if (48 <=? c) && (c <=? 57) then digits_value (10 * acc + (c - 48)) s' else None
  end.

(** [int(s)] for a text of digits, one at least. *)
Definition number_of (s : text) : option N :=
  match s with
  | [] => None
  | _ :: _ => digits_value 0 s
  end.

(** The name [save_chat_history] gives the file it writes at [now]. *)
Definition transcript_name (now : datetime) : text :=
  str "chat_" ++ strftime_Ymd_HMS now ++ str ".json".

Ltac world_simpl :=
  cbn [session_of messages set_messages log_chain_call log_st_error log_opened
       set_chat_histories chain_calls st_errors opened chat_histories
       world_of value_of fst snd].

(** The test of the loop of [load_chat_histories]. *)
Definition is_json (name : text) : bool := endswith name (str ".json").

(** File [name] of the directory can be opened (it is there, and [name]
    is a plain file name, without a slash) and its text is a JSON
    document. *)
Definition parses (d : directory) (name : text) : Prop :=
  existsb (N.eqb 47) name = false
  /\ exists c v, read_file d name = Some c /\ loads c = Some v.

(** Entry [e] is what [load_chat_histories] makes of file [name]. *)
Definition transcript_of (d : directory) (name : text) (e : history_entry) : Prop :=
  filename e = name
  /\ exists c, read_file d name = Some c /\ loads c = Some (data e).

(** Entries in descending order of their file names. *)
Definition descending (l : list history_entry) : Prop :=
  StronglySorted (fun a b => text_leb (filename b) (filename a) = true) l.

(** What one iteration of the loop computes from the directory. *)
Definition parse_file (d : directory) (name : text) : option history_entry :=
  match entry_of_path CHAT_HISTORY_DIR (path_join CHAT_HISTORY_DIR name) with
  | Some n =>
    match read_file d n with
    | Some c =>
      match loads c with
      | Some v => Some {| filename := name; data := v |}
      | None => None
      end
    | None => None
    end
  | None => None
  end.

(** The exception an iteration raises when it does not produce an entry. *)
Definition file_error (d : directory) (name : text) : exn :=
  let path := path_join CHAT_HISTORY_DIR name in
  match entry_of_path CHAT_HISTORY_DIR path with
  | Some n =>
    match read_file d n with
    | Some _ => JSONDecodeError path
    | None => FileNotFoundError path
    end
  | None => FileNotFoundError path
  end.

(** A Unicode scalar value: a code point that is not a surrogate. *)
Definition scalar (c : N) : Prop := c < 1114112 /\ ~ (55296 <= c <= 57343).

(** Text as an encoder or a decoder of UTF-8 delivers it. *)
Definition well_formed_text (s : text) : Prop := Forall scalar s.

Definition well_formed_session (h : session) : Prop :=
  Forall (fun m => well_formed_text (role m) /\ well_formed_text (content m)) h.

(** White space for the decoder. *)
Definition is_ws (c : N) : bool := (c =? 32) || (c =? 9) || (c =? 10) || (c =? 13).

(** The items of the dumped list: the objects of the messages, separated
    by a comma and a line break. *)
Definition items_text (h : session) : text :=
  join (44 :: newline_indent 1) (map (encode 1) (map json_of_message h)).

(** Evaluate the comparisons of the goal whose operands are numerals. *)
Ltac closed_tests :=
  repeat match goal with
         | |- context [N.eqb ?a ?b] =>
           let v := eval vm_compute in (N.eqb a b) in
           match v with
           | true => change (N.eqb a b) with true
           | false => change (N.eqb a b) with false
           end
         | |- context [N.ltb ?a ?b] =>
           let v := eval vm_compute in (N.ltb a b) in
           match v with
           | true => change (N.ltb a b) with true
           | false => change (N.ltb a b) with false
           end
         end.

(* ================================================================== *)
(** * Sample data *)

Module Sample.

(** 9 March 2024, 07:05:59, and the same second 250 ms later. *)
Definition clock_a : datetime :=
  {| year := 2024; month := 3; day := 9; hour := 7; minute := 5; second := 59;
     microsecond := 120000 |}.

Definition clock_b : datetime :=
  {| year := 2024; month := 3; day := 9; hour := 7; minute := 5; second := 59;
     microsecond := 370000 |}.

(** A model that answers, and a model that is down. *)
Definition llm_hello : list text -> text -> outcome := fun _ _ => Returned (str "hello").

Definition llm_down : list text -> text -> outcome :=
  fun _ _ => Raised (str "connection refused").

Definition greeting : session :=
  [user_message (str "hi"); assistant_message (str "hello")].

Definition farewell : session :=
  [user_message (str "bye"); assistant_message (str "see you")].

(** The context and the question of the example of the specification. *)
Definition greeting_context : text := str "User: hi" ++ [10] ++ str "AI: hello".

Definition question : text := str "how are you?".

(** A directory with two transcripts and a text file. *)
Definition tidy : directory :=
  [(str "chat_20240101_120000.json", dumps (json_of_session greeting));
   (str "notes.txt", str "{ not json");
   (str "chat_20240102_080000.json", dumps (json_of_session farewell))].

(** A directory with a transcript and a file cut short. *)
Definition broken : directory :=
  [(str "chat_20240101_120000.json", dumps (json_of_session greeting));
   (str "chat_20240102_080000.json", str "[{")].

(** A session under way: the greeting has been exchanged. *)
Definition under_way : world :=
  {| chat_histories := []; messages := Some greeting; chain_calls := [];
     st_errors := []; opened := [] |}.

Definition asking : ui :=
  {| previous_chats := false; chat_input := Some question;
     save_button := false; clock := clock_a |}.

End Sample.

(* ================================================================== *)
(** * [main]: the view of previous chats *)

Module View.

(** What the script puts on the page. An f-string with a value in it is
    kept as its literal part and the value: the text drawn is the literal
    part followed by [str(value)], which for a string is the string. *)
Inductive drawn : Type :=
| SidebarText (t : text)               (* st.sidebar.write(t) *)
| Text (t : text)                      (* st.write(t) *)
| Labelled (label : text) (v : json).  (* st.write(f"<label>{v}") *)

(** Exceptions the view can end in: one that [load_chat_histories] raised,
    or one raised while the selected history is drawn. *)
Inductive view_exn : Type :=
| Propagated (e : exn)
| StopIteration
| TypeError
| AttributeError
| KeyError (key : text).

(** [d.get(k)] and [d[k]] on a dict: the value under the key, if any. The
    keys of a dict are distinct ([json.load] builds it with
    [dict_of_pairs]), so at most one member has the key. *)
Fixpoint dict_get (d : list (text * json)) (k : text) : option json :=
  match d with
  | [] => None
  | (k', v) :: d' => if text_eqb k' k then Some v else dict_get d' k
  end.

(** [for entry in v]: the elements of a list, the keys of a dict, the
    characters of a string; anything else is not iterable. *)
Definition py_iter (v : json) : option (list json) :=
  match v with
  | JArray items => Some items
  | JObject members => Some (map (fun kv => JString (fst kv)) members)
  | JString s => Some (map (fun c => JString [c]) s)
  | _ => None
  end.

(** [x == s] for a string literal [s], [x] being a value or [None]. *)
Definition equals_str (x : option json) (s : string) : bool :=
  match x with
  | Some (JString t) => text_eqb t (str s)
  | _ => false
  end.

(** The body of [for entry in selected_data], over the entries left. The
    lines drawn before an exception stay drawn. *)
Fixpoint draw_entries (entries : list json) : list drawn * option view_exn :=
  match entries with
  | [] => ([], None)
  | entry :: rest =>
    match entry with
    | JObject d =>
      if equals_str (dict_get d (str "role")) "user" then
        match dict_get d (str "content") with
        | Some c =>
          let (lines, e) := draw_entries rest in
          (Labelled (str "**You:** ") c :: lines, e)
        | None => ([], Some (KeyError (str "content")))
        end
      else if equals_str (dict_get d (str "role")) "assistant" then
        match dict_get d (str "content") with
        | Some c =>
          let (lines, e) := draw_entries rest in
          (Labelled (str "**AI:** ") c :: lines, e)
        | None => ([], Some (KeyError (str "content")))
        end
      else draw_entries rest
    | _ => ([], Some AttributeError)      (* no method [get] *)
    end
  end.

(** [for entry in selected_data: ...] *)
Definition draw_history (selected_data : json) : list drawn * option view_exn :=
  match py_iter selected_data with
  | Some entries => draw_entries entries
  | None => ([], Some TypeError)
  end.

(** The branch of [main] for "Previous Chats", with what it draws;
    [selected_chat] is what [st.sidebar.selectbox] returns. *)
Definition previous_chats_page (selected_chat : text)
  : world -> (list drawn * option view_exn) * world :=
  fun w =>
    match load_chat_histories w with
    | (Raise e, w') => (([], Some (Propagated e)), w')
    | (Ok [], w') => (([SidebarText (str "No chat histories found.")], None), w')
    | (Ok histories, w') =>
      match find (fun h => text_eqb (filename h) selected_chat) histories with
      | None => (([], Some StopIteration), w')
      | Some h =>
        let (lines, e) := draw_history (data h) in
        ((Text (str "### Chat: " ++ selected_chat) :: lines, e), w')
      end
    end.

End View.
Import View.

(* ================================================================== *)
(** * Further vocabulary *)

(** The lines the view draws for a message: one for a user or an
    assistant message, none for any other role. *)
Definition shown (m : message) : list drawn :=
  if text_eqb (role m) (str "user") then [Labelled (str "**You:** ") (JString (content m))]
  else if text_eqb (role m) (str "assistant")
       then [Labelled (str "**AI:** ") (JString (content m))]
       else [].

Definition display (h : session) : list drawn := flat_map shown h.

(** The session made of the inputs and the replies to them, in turn. *)
Fixpoint exchanges (inputs replies : list text) : session :=
  match inputs, replies with
  | p :: inputs', r :: replies' =>
    user_message p :: assistant_message r :: exchanges inputs' replies'
  | _, _ => []
  end.


(** A value that is no dict. *)
Definition is_object (v : json) : bool :=
  match v with
  | JObject _ => true
  | _ => false
  end.

(** The entry a file of the directory gives when it parses. *)
Definition entry_of (d : directory) (name : text) : history_entry :=
  match parse_file d name with
  | Some e => e
  | None => {| filename := name; data := JNull |}
  end.

(** A character of a text file in ASCII: a line break or a printable
    character. *)
Definition ascii_char (c : N) : Prop := c = 10 \/ 32 <= c <= 126.

(** A literal text of printable characters. *)
Ltac printable_list :=
  repeat (apply Forall_cons; [right; vm_compute; split; discriminate|]); apply Forall_nil.

Module Cases.

(** The second after [Sample.clock_a]. *)
Definition clock_c : datetime :=
  {| year := 2024; month := 3; day := 9; hour := 7; minute := 6; second := 0;
     microsecond := 0 |}.

(** The directory [Sample.tidy], listed in another order. *)
Definition tidy_other_order : directory :=
  [(str "chat_20240102_080000.json", dumps (json_of_session Sample.farewell));
   (str "chat_20240101_120000.json", dumps (json_of_session Sample.greeting));
   (str "notes.txt", str "{ not json")].

(** A page with an input and the button pressed. *)
Definition asking_and_saving : ui :=
  {| previous_chats := false; chat_input := Some Sample.question;
     save_button := true; clock := Sample.clock_a |}.

(** A page with the button pressed and no input. *)
Definition saving_only : ui :=
  {| previous_chats := false; chat_input := None;
     save_button := true; clock := Sample.clock_a |}.


(** An instant before year 1000. *)
Definition year_999 : datetime :=
  {| year := 999; month := 1; day := 2; hour := 3; minute := 4; second := 5;
     microsecond := 0 |}.

(** The instants in the names of the transcripts of [Sample.tidy]. *)
Definition new_year_noon : datetime :=
  {| year := 2024; month := 1; day := 1; hour := 12; minute := 0; second := 0;
     microsecond := 0 |}.

Definition next_morning : datetime :=
  {| year := 2024; month := 1; day := 2; hour := 8; minute := 0; second := 0;
     microsecond := 0 |}.

Definition entry_greeting : history_entry :=
  {| filename := str "chat_20240101_120000.json";
     data := json_of_session Sample.greeting |}.

Definition entry_farewell : history_entry :=
  {| filename := str "chat_20240102_080000.json";
     data := json_of_session Sample.farewell |}.

(** What [load_chat_histories] returns on [Sample.tidy]. *)
Definition tidy_histories : list history_entry := [entry_farewell; entry_greeting].

(** A directory without any transcript. *)
Definition only_notes : directory := [(str "notes.txt", str "{ not json")].

End Cases.
(* ================================================================== *)
(** * Properties of the string operations *)

#[local] Arguments N.eqb : simpl never.
#[local] Arguments N.ltb : simpl never.
#[local] Arguments N.leb : simpl never.
#[local] Arguments N.add : simpl never.
#[local] Arguments N.sub : simpl never.
#[local] Arguments N.mul : simpl never.
#[local] Arguments N.div : simpl never.
#[local] Arguments N.modulo : simpl never.

Lemma text_eqb_refl (a : text) : text_eqb a a = true.
Proof.
  induction a as [|x a IH]; simpl; [reflexivity|].
  now rewrite N.eqb_refl.
Qed.

Lemma text_eqb_eq (a b : text) : text_eqb a b = true <-> a = b.
Proof.
  split.
  - revert b; induction a as [|x a IH]; intros [|y b] H; simpl in H;
      try discriminate; [reflexivity|].
    apply andb_true_iff in H as [Hx Hr].
    apply N.eqb_eq in Hx. f_equal; auto.
  - intros ->. apply text_eqb_refl.
Qed.

Lemma text_eqb_neq (a b : text) : text_eqb a b = false <-> a <> b.
Proof.
  split.
  - intros H ->. rewrite text_eqb_refl in H. discriminate.
  - intros H. destruct (text_eqb a b) eqn:E; [|reflexivity].
    apply text_eqb_eq in E. contradiction.
Qed.

Lemma strip_prefix_app (p s : text) : strip_prefix p (p ++ s) = Some s.
Proof.
  induction p as [|x p IH]; simpl.
  - now destruct s.
  - now rewrite N.eqb_refl.
Qed.

Lemma strip_prefix_Some (p s r : text) : strip_prefix p s = Some r -> s = p ++ r.
Proof.
  revert s; induction p as [|x p IH]; intros s H.
  - destruct s; simpl in H; injection H as <-; reflexivity.
  - destruct s as [|y s]; simpl in H; [discriminate|].
    destruct (x =? y) eqn:E; [|discriminate].
    apply N.eqb_eq in E. subst y. simpl. f_equal. auto.
Qed.

Lemma endswith_app (a suffix : text) : endswith (a ++ suffix) suffix = true.
Proof.
  unfold endswith. rewrite length_app.
  replace (length a + length suffix - length suffix)%nat with (length a) by lia.
  rewrite skipn_app, skipn_all, Nat.sub_diag. simpl.
  rewrite text_eqb_refl, andb_true_r.
  apply Nat.leb_le. lia.
Qed.

Lemma occurs_in_middle (before needle after : text) :
  occurs_in needle (before ++ needle ++ after).
Proof. now exists before, after. Qed.

(* ================================================================== *)
(** * The conversation engine *)

Section Engine.

Variable llm : list text -> text -> outcome.

Lemma generate_response_unfold (context user_input : text) (w : world) :
  generate_response llm context user_input w =
    let call := {| inv_context := context; inv_question := user_input;
                   inv_prompt := prompt_format context user_input |} in
    match llm (map inv_prompt (chain_calls w)) (prompt_format context user_input) with
    | Returned result => (Ok result, log_chain_call call w)
    | Raised e =>
      (Ok FALLBACK,
       log_st_error (str "Error generating response: " ++ e) (log_chain_call call w))
    end.
Proof.
  unfold generate_response, bind, chain_invoke. simpl.
  destruct (llm _ _); reflexivity.
Qed.

End Engine.

(** C3. Whatever the context and the question, when the call of the chain
    raises an exception [e], [generate_response] returns the literal text
    "I'm sorry, but I encountered an error while processing your request."
    (after showing [e] with [st.error]); it never raises; and when the call
    returns, the value is the model's text and nothing is shown as an
    error. *)
Theorem generate_response_fallback
  (llm : list text -> text -> outcome) (context user_input : text) (w : world) :
  let r := generate_response llm context user_input w in
  let answer := llm (map inv_prompt (chain_calls w)) (prompt_format context user_input) in
  (forall e, answer = Raised e ->
     value_of r
       = Ok (str "I'm sorry, but I encountered an error while processing your request.")
     /\ st_errors (world_of r)
       = st_errors w ++ [str "Error generating response: " ++ e])
  /\ (forall result, answer = Returned result ->
        value_of r = Ok result /\ st_errors (world_of r) = st_errors w)
  /\ (exists reply, value_of r = Ok reply).
Proof.
  cbv zeta. rewrite generate_response_unfold. cbv zeta.
  repeat split.
  - rewrite H. reflexivity.
  - rewrite H. reflexivity.
  - rewrite H. reflexivity.
  - rewrite H. reflexivity.
  - destruct (llm _ _); eexists; reflexivity.
Qed.

(** C4. Whatever the context and the question, [generate_response] calls
    the chain once, the prompt the model receives is the template with the
    context and the question in its two slots, so both occur verbatim in it,
    and when the model returns, its text is the value returned, unchanged. *)
Theorem generate_response_prompt
  (llm : list text -> text -> outcome) (context user_input : text) (w : world) :
  let r := generate_response llm context user_input w in
  exists call,
    chain_calls (world_of r) = chain_calls w ++ [call]
    /\ inv_prompt call
       = template_head ++ context ++ template_middle ++ user_input ++ template_tail
    /\ occurs_in context (inv_prompt call)
    /\ occurs_in user_input (inv_prompt call)
    /\ (forall result,
          llm (map inv_prompt (chain_calls w)) (inv_prompt call) = Returned result ->
          value_of r = Ok result).
Proof.
  cbv zeta. rewrite generate_response_unfold. cbv zeta.
  eexists. split; [|split; [|split; [|split]]].
  - destruct (llm _ _); reflexivity.
  - reflexivity.
  - simpl inv_prompt. unfold prompt_format. apply occurs_in_middle.
  - simpl inv_prompt. unfold prompt_format.
    exists (template_head ++ context ++ template_middle), template_tail.
    now rewrite <- !app_assoc.
  - simpl inv_prompt. intros result H. rewrite H. reflexivity.
Qed.

(* ================================================================== *)
(** * The chat loop *)

Section ChatLoop.

Variable llm : list text -> text -> outcome.

Lemma save_chat_history_frame (now : datetime) (h : session) (w : world) :
  let w' := world_of (save_chat_history now h w) in
  messages w' = messages w /\ chain_calls w' = chain_calls w /\ st_errors w' = st_errors w.
Proof.
  unfold save_chat_history, bind, open_write. simpl.
  destruct (entry_of_path _ _); simpl; auto.
Qed.

Lemma session_of_init (w : world) :
  session_of (world_of (init_messages w)) = session_of w.
Proof.
  unfold init_messages, session_of.
  destruct (messages w) eqn:E; simpl; rewrite ?E; reflexivity.
Qed.

Lemma current_chat_step (page : ui) (w : world) (p : text) :
  chat_input page = Some p -> p <> [] ->
  let w' := world_of (current_chat llm page w) in
  let context := build_context (session_of w ++ [user_message p]) in
  exists reply,
    session_of w' = session_of w ++ [user_message p; assistant_message reply]
    /\ chain_calls w'
       = chain_calls w ++ [{| inv_context := context; inv_question := p;
                              inv_prompt := prompt_format context p |}].
Proof.
  intros Hin Hp. cbv zeta.
  unfold current_chat. rewrite Hin.
  destruct p as [|c p]; [congruence|]. cbn [truthy].
  remember (c :: p) as q eqn:Hq. clear Hq Hp Hin.
  unfold bind, append_message, get_messages, ret.
  pose proof (session_of_init w) as Hs.
  assert (Hc : chain_calls (world_of (init_messages w)) = chain_calls w)
    by (unfold init_messages; destruct (messages w); reflexivity).
  destruct (init_messages w) as [[[]|e] w1] eqn:Hi;
    [|unfold init_messages in Hi; destruct (messages w); discriminate].
  unfold world_of in Hs, Hc; simpl in Hs, Hc.
  rewrite generate_response_unfold. cbv zeta.
  cbn [session_of messages set_messages chain_calls log_chain_call].
  rewrite Hs, Hc.
  set (answer := llm _ _).
  destruct answer as [reply|e].
  - exists reply.
    destruct (save_button page).
    + cbn [session_of messages set_messages log_chain_call].
      match goal with |- context [save_chat_history ?n ?h ?x] =>
        pose proof (save_chat_history_frame n h x) as (Fm & Fc & _);
        destruct (save_chat_history n h x) as [[?|?] ?] end;
      unfold world_of in *; simpl in Fm, Fc |- *;
      unfold session_of at 1; rewrite Fm, Fc, ?Hc, <- ?app_assoc;
      split; reflexivity.
    + world_simpl. rewrite ?Hc, <- ?app_assoc. split; reflexivity.
  - exists FALLBACK.
    destruct (save_button page).
    + cbn [session_of messages set_messages log_chain_call log_st_error].
      match goal with |- context [save_chat_history ?n ?h ?x] =>
        pose proof (save_chat_history_frame n h x) as (Fm & Fc & _);
        destruct (save_chat_history n h x) as [[?|?] ?] end;
      unfold world_of in *; simpl in Fm, Fc |- *;
      unfold session_of at 1; rewrite Fm, Fc, ?Hc, <- ?app_assoc;
      split; reflexivity.
    + world_simpl. rewrite ?Hc, <- ?app_assoc. split; reflexivity.
Qed.

Lemma current_chat_idle (page : ui) (w : world) :
  truthy (chat_input page) = false ->
  value_of (current_chat llm page w) = Ok tt
  /\ session_of (world_of (current_chat llm page w)) = session_of w
  /\ chain_calls (world_of (current_chat llm page w)) = chain_calls w.
Proof.
  intros H. unfold current_chat. rewrite H.
  unfold bind, ret, init_messages.
  unfold session_of.
  destruct (messages w) eqn:E; world_simpl; rewrite ?E; auto.
Qed.

Lemma turn_ok (now : datetime) (input : text) (w : world) :
  value_of (turn llm now input w) = Ok tt.
Proof.
  unfold turn, main, current_chat. cbn [previous_chats chat_input save_button].
  destruct input as [|c p]; cbn [truthy];
    unfold bind, ret, init_messages, append_message, get_messages;
    destruct (messages w); try reflexivity;
    rewrite generate_response_unfold; cbv zeta;
    destruct (llm _ _); reflexivity.
Qed.

(** One run of the script only ever appends to the session: nothing, or a
    user message followed by an assistant message. *)
Lemma turn_appends (now : datetime) (input : text) (w : world) :
  exists added,
    session_of (world_of (turn llm now input w)) = session_of w ++ added
    /\ map role added
       = if truthy (Some input) then [str "user"; str "assistant"] else [].
Proof.
  unfold turn, main. cbn [previous_chats].
  destruct input as [|c p].
  - exists []. rewrite app_nil_r. split; [|reflexivity].
    now apply current_chat_idle.
  - edestruct (current_chat_step
                 {| previous_chats := false; chat_input := Some (c :: p);
                    save_button := false; clock := now |} w (c :: p))
      as (reply & Hs & _); [reflexivity|discriminate|].
    eexists. split; [exact Hs|reflexivity].
Qed.

Lemma chat_loop_appends (now : datetime) (inputs : list text) (w : world) :
  value_of (chat_loop llm now inputs w) = Ok tt
  /\ exists added,
       session_of (world_of (chat_loop llm now inputs w)) = session_of w ++ added
       /\ map role added
          = concat (repeat [str "user"; str "assistant"] (processed inputs)).
Proof.
  revert w. induction inputs as [|input rest IH]; intros w.
  - split; [reflexivity|]. exists []. now rewrite app_nil_r.
  - cbn [chat_loop]. unfold bind.
    pose proof (turn_ok now input w) as Hv.
    destruct (turn_appends now input w) as (a1 & Hs1 & Hr1).
    destruct (turn llm now input w) as [[[]|e] w1]; [|discriminate].
    unfold world_of in Hs1; cbn [snd] in Hs1.
    destruct (IH w1) as (Hok & a2 & Hs2 & Hr2).
    split; [exact Hok|].
    exists (a1 ++ a2). rewrite Hs2, Hs1, <- app_assoc. split; [reflexivity|].
    rewrite map_app, Hr1, Hr2. unfold processed. cbn [filter].
    destruct (truthy (Some input)); reflexivity.
Qed.

End ChatLoop.

(* ================================================================== *)
(** * The directory and the names of transcripts *)

Lemma read_write_same (d : directory) (name c : text) :
  read_file (write_file d name c) name = Some c.
Proof.
  induction d as [|[n c0] d IH]; simpl.
  - now rewrite text_eqb_refl.
  - destruct (text_eqb n name) eqn:E; simpl; rewrite E; auto.
Qed.

Lemma read_write_other (d : directory) (name c other : text) :
  other <> name -> read_file (write_file d name c) other = read_file d other.
Proof.
  intros Hne. induction d as [|[n c0] d IH]; simpl.
  - apply not_eq_sym, text_eqb_neq in Hne. now rewrite Hne.
  - destruct (text_eqb n name) eqn:E; simpl.
    + apply text_eqb_eq in E. subst n.
      apply not_eq_sym, text_eqb_neq in Hne. now rewrite Hne.
    + destruct (text_eqb n other); auto.
Qed.

Lemma write_write (d : directory) (name c1 c2 : text) :
  write_file (write_file d name c1) name c2 = write_file d name c2.
Proof.
  induction d as [|[n c0] d IH]; simpl.
  - now rewrite text_eqb_refl.
  - destruct (text_eqb n name) eqn:E; simpl; rewrite E; [reflexivity|].
    now rewrite IH.
Qed.

Lemma listdir_write (d : directory) (name c : text) :
  listdir (write_file d name c)
  = if existsb (fun n => text_eqb n name) (listdir d)
    then listdir d else listdir d ++ [name].
Proof.
  unfold listdir.
  induction d as [|[n c0] d IH]; simpl; [reflexivity|].
  destruct (text_eqb n name) eqn:E; simpl; [reflexivity|].
  rewrite IH. destruct (existsb _ _); reflexivity.
Qed.

Lemma In_listdir_write (d : directory) (name c other : text) :
  In other (listdir (write_file d name c)) <-> In other (listdir d) \/ other = name.
Proof.
  rewrite listdir_write.
  destruct (existsb _ _) eqn:E.
  - split; [auto|]. intros [H| ->]; [exact H|].
    apply existsb_exists in E as (n & Hn & Heq).
    apply text_eqb_eq in Heq. now subst.
  - rewrite in_app_iff. simpl. intuition.
Qed.

Lemma read_file_In (d : directory) (name c : text) :
  read_file d name = Some c -> In name (listdir d).
Proof.
  induction d as [|[n c0] d IH]; simpl; [discriminate|].
  destruct (text_eqb n name) eqn:E.
  - apply text_eqb_eq in E. auto.
  - auto.
Qed.

Lemma digit_ge (d : N) : 48 <= digit d.
Proof. unfold digit. lia. Qed.

Lemma timestamp_chars (now : datetime) :
  Forall (fun c => c <> 47) (strftime_Ymd_HMS now).
Proof.
  unfold strftime_Ymd_HMS, year_digits, pad2.
  destruct (year now <? 10); [|destruct (year now <? 100); [|destruct (year now <? 1000)]];
  repeat first [apply Forall_app; split | apply Forall_cons | apply Forall_nil];
    try (pose proof digit_ge; match goal with |- digit ?d <> _ =>
           specialize (digit_ge d); lia end).
  all: discriminate.
Qed.

Lemma no_slash (l : text) :
  Forall (fun c => c <> 47) l -> existsb (N.eqb 47) l = false.
Proof.
  induction 1 as [|c l Hc _ IH]; simpl; [reflexivity|].
  rewrite IH, orb_false_r. apply N.eqb_neq. congruence.
Qed.

Lemma transcript_name_no_slash (now : datetime) :
  existsb (N.eqb 47) (transcript_name now) = false.
Proof.
  apply no_slash. unfold transcript_name.
  apply Forall_app; split; [|apply Forall_app; split; [apply timestamp_chars|]].
  - let v := eval vm_compute in (str "chat_") in change (str "chat_") with v.
    repeat constructor; discriminate.
  - let v := eval vm_compute in (str ".json") in change (str ".json") with v.
    repeat constructor; discriminate.
Qed.

Lemma transcript_name_is_json (now : datetime) :
  endswith (transcript_name now) (str ".json") = true.
Proof.
  unfold transcript_name. rewrite app_assoc. apply endswith_app.
Qed.

Lemma transcript_path (now : datetime) :
  path_join CHAT_HISTORY_DIR (transcript_name now)
  = str "chat_histories/" ++ transcript_name now.
Proof. reflexivity. Qed.

Lemma entry_of_transcript_path (now : datetime) :
  entry_of_path CHAT_HISTORY_DIR (path_join CHAT_HISTORY_DIR (transcript_name now))
  = Some (transcript_name now).
Proof.
  rewrite transcript_path. unfold entry_of_path.
  change (CHAT_HISTORY_DIR ++ str "/") with (str "chat_histories/").
  rewrite strip_prefix_app, transcript_name_no_slash. reflexivity.
Qed.

Lemma save_chat_history_unfold (now : datetime) (h : session) (w : world) :
  save_chat_history now h w
  = (Ok (str "chat_histories/" ++ transcript_name now),
     set_chat_histories
       (write_file (chat_histories w) (transcript_name now) (dumps (json_of_session h)))
       (log_opened [str "chat_histories/" ++ transcript_name now] w)).
Proof.
  unfold save_chat_history. fold (transcript_name now).
  unfold bind, open_write. rewrite entry_of_transcript_path.
  rewrite transcript_path. reflexivity.
Qed.

(* ================================================================== *)
(** * File names follow the calendar *)

Lemma text_leb_refl (a : text) : text_leb a a = true.
Proof.
  induction a as [|x a IH]; [reflexivity|]. cbn [text_leb].
  now rewrite N.ltb_irrefl.
Qed.

Lemma text_leb_app (p a b : text) : text_leb (p ++ a) (p ++ b) = text_leb a b.
Proof.
  induction p as [|x p IH]; [reflexivity|]. cbn [app text_leb].
  now rewrite N.ltb_irrefl.
Qed.

Lemma text_leb_digit (a b : N) (x y : text) :
  a < 10 -> b < 10 ->
  text_leb (digit a :: x) (digit b :: y)
  = if a <? b then true else if b <? a then false else text_leb x y.
Proof.
  intros Ha Hb. cbn [text_leb]. unfold digit.
  rewrite (N.mod_small a), (N.mod_small b) by assumption.
  destruct (N.ltb_spec a b), (N.ltb_spec b a),
           (N.ltb_spec (48 + a) (48 + b)), (N.ltb_spec (48 + b) (48 + a));
    try reflexivity; lia.
Qed.

Lemma digit_mod (n : N) : digit n = digit (n mod 10).
Proof. unfold digit. now rewrite N.Div0.mod_mod. Qed.

Lemma text_leb_pad2 (a b : N) (x y : text) :
  a < 100 -> b < 100 ->
  text_leb (pad2 a ++ x) (pad2 b ++ y)
  = if a <? b then true else if b <? a then false else text_leb x y.
Proof.
  intros Ha Hb. unfold pad2. cbn [app].
  rewrite (digit_mod a), (digit_mod b).
  rewrite !text_leb_digit by lia.
  destruct (N.ltb_spec (a / 10) (b / 10)), (N.ltb_spec (b / 10) (a / 10)),
           (N.ltb_spec (a mod 10) (b mod 10)), (N.ltb_spec (b mod 10) (a mod 10)),
           (N.ltb_spec a b), (N.ltb_spec b a);
    try reflexivity; lia.
Qed.

Lemma year_digits_four (n : N) :
  1000 <= n ->
  year_digits n = [digit (n / 1000); digit (n / 100); digit (n / 10); digit n].
Proof.
  intros H. unfold year_digits.
  destruct (N.ltb_spec n 10); [lia|]. destruct (N.ltb_spec n 100); [lia|].
  destruct (N.ltb_spec n 1000); [lia|]. reflexivity.
Qed.

Lemma text_leb_year (a b : N) (x y : text) :
  1000 <= a < 10000 -> 1000 <= b < 10000 ->
  text_leb (year_digits a ++ x) (year_digits b ++ y)
  = if a <? b then true else if b <? a then false else text_leb x y.
Proof.
  intros Ha Hb. rewrite !year_digits_four by lia.
  assert (E : forall n, [digit (n / 1000); digit (n / 100); digit (n / 10); digit n]
                        = pad2 (n / 100) ++ pad2 (n mod 100)).
  { intros n. unfold pad2, digit. cbn [app].
    repeat (apply f_equal2; [lia|]). reflexivity. }
  rewrite !E, <- !app_assoc.
  rewrite text_leb_pad2 by lia. rewrite text_leb_pad2 by lia.
  destruct (N.ltb_spec (a / 100) (b / 100)), (N.ltb_spec (b / 100) (a / 100)),
           (N.ltb_spec (a mod 100) (b mod 100)), (N.ltb_spec (b mod 100) (a mod 100)),
           (N.ltb_spec a b), (N.ltb_spec b a);
    try reflexivity; lia.
Qed.

Lemma lex_step (m a b ka kb : N) (rest : bool) :
  ka < m -> kb < m -> (rest = true <-> ka <= kb) ->
  (if a <? b then true else if b <? a then false else rest) = true
  <-> a * m + ka <= b * m + kb.
Proof.
  intros Ha Hb Hrest.
  destruct (N.ltb_spec a b) as [Hab|Hab].
  - split; [intros _|reflexivity]. nia.
  - destruct (N.ltb_spec b a) as [Hba|Hba].
    + split; [discriminate|]. intros H. exfalso. nia.
    + assert (a = b) by lia. subst b. rewrite Hrest. lia.
Qed.

(** From year 1000 on, the names of transcripts are ordered as their
    instants are: a later save gets a greater name, so that the descending
    order of names is "most recent first". *)
Lemma transcript_name_chronological (a b : datetime) :
  in_range a -> in_range b ->
  1000 <= year a -> 1000 <= year b ->
  text_leb (transcript_name a) (transcript_name b) = true
  <-> calendar_key a <= calendar_key b.
Proof.
  intros (Ya & Ma & Da & ha & ma & sa) (Yb & Mb & Db & hb & mb & sb) Ka Kb.
  unfold transcript_name, strftime_Ymd_HMS.
  rewrite text_leb_app, <- !app_assoc.
  rewrite text_leb_year by lia. rewrite 2!text_leb_pad2 by assumption.
  rewrite (text_leb_app (str "_")).
  rewrite 3!text_leb_pad2 by assumption.
  rewrite text_leb_refl.
  replace (calendar_key a)
    with (year a * 10000000000
          + (month a * 100000000
             + (day a * 1000000 + (hour a * 10000 + (minute a * 100 + (second a * 1 + 0))))))
    by (unfold calendar_key; lia).
  replace (calendar_key b)
    with (year b * 10000000000
          + (month b * 100000000
             + (day b * 1000000 + (hour b * 10000 + (minute b * 100 + (second b * 1 + 0))))))
    by (unfold calendar_key; lia).
  repeat (apply lex_step; [lia|lia|]).
  split; [lia|reflexivity].
Qed.

(** Before year 1000 the year has fewer digits, and the order of the names
    is no longer that of the instants. *)
Lemma transcript_name_before_year_1000 :
  strftime_Ymd_HMS Cases.year_999 = str "9990102_030405"
  /\ text_leb (transcript_name Cases.new_year_noon) (transcript_name Cases.year_999) = true
  /\ calendar_key Cases.year_999 < calendar_key Cases.new_year_noon.
Proof. vm_compute. repeat split. Qed.

(* ================================================================== *)
(** * The name of a transcript reads as its instant *)

Lemma digits_value_digit (acc d : N) (s : text) :
  digits_value acc (digit d :: s) = digits_value (10 * acc + d mod 10) s.
Proof.
  cbn [digits_value]. unfold digit.
  pose proof (N.mod_upper_bound d 10 ltac:(lia)) as Hd.
  destruct (N.leb_spec 48 (48 + d mod 10)); [|lia].
  destruct (N.leb_spec (48 + d mod 10) 57); [|lia].
  cbn [andb]. f_equal. lia.
Qed.

Lemma digits_value_pad2 (acc n : N) (s : text) :
  n < 100 -> digits_value acc (pad2 n ++ s) = digits_value (100 * acc + n) s.
Proof.
  intros H. unfold pad2. cbn [app]. rewrite !digits_value_digit. f_equal. lia.
Qed.

Lemma digits_value_year (n : N) (s : text) :
  n < 10000 -> digits_value 0 (year_digits n ++ s) = digits_value n s.
Proof.
  intros H. unfold year_digits.
  destruct (N.ltb_spec n 10);
    [|destruct (N.ltb_spec n 100); [|destruct (N.ltb_spec n 1000)]];
    cbn [app]; rewrite !digits_value_digit; f_equal; lia.
Qed.

Lemma number_of_year (n : N) (s : text) :
  number_of (year_digits n ++ s) = digits_value 0 (year_digits n ++ s).
Proof.
  unfold year_digits.
  destruct (n <? 10); [|destruct (n <? 100); [|destruct (n <? 1000)]]; reflexivity.
Qed.

(** The stamp is the date, an underscore and the time of day, each in
    decimal digits. *)
Lemma strftime_reads (t : datetime) :
  in_range t ->
  exists date time,
    strftime_Ymd_HMS t = date ++ str "_" ++ time
    /\ number_of date = Some (year t * 10000 + month t * 100 + day t)
    /\ number_of time = Some (hour t * 10000 + minute t * 100 + second t)
    /\ length time = 6%nat
    /\ (1000 <= year t -> length date = 8%nat).
Proof.
  intros (HY & Hm & Hd & HH & HM & HS).
  exists (year_digits (year t) ++ pad2 (month t) ++ pad2 (day t)),
         (pad2 (hour t) ++ pad2 (minute t) ++ pad2 (second t)).
  split; [unfold strftime_Ymd_HMS; now rewrite <- !app_assoc|].
  split.
  { rewrite number_of_year, digits_value_year by exact HY.
    rewrite digits_value_pad2 by exact Hm.
    rewrite <- (app_nil_r (pad2 (day t))), digits_value_pad2 by exact Hd.
    cbn [digits_value]. f_equal. lia. }
  split.
  { change (number_of (pad2 (hour t) ++ pad2 (minute t) ++ pad2 (second t)))
      with (digits_value 0 (pad2 (hour t) ++ pad2 (minute t) ++ pad2 (second t))).
    rewrite digits_value_pad2 by exact HH. rewrite digits_value_pad2 by exact HM.
    rewrite <- (app_nil_r (pad2 (second t))), digits_value_pad2 by exact HS.
    cbn [digits_value]. f_equal. lia. }
  split; [reflexivity|].
  intros H. now rewrite year_digits_four.
Qed.

Lemma app_eq_length_r {A : Type} (x1 y1 x2 y2 : list A) :
  length x2 = length y2 -> x1 ++ x2 = y1 ++ y2 -> x1 = y1 /\ x2 = y2.
Proof.
  intros Hl. revert y1. induction x1 as [|a x1 IH]; intros [|b y1] E; cbn [app] in E.
  - auto.
  - exfalso. apply (f_equal (@length A)) in E. cbn [length] in E.
    rewrite length_app in E. lia.
  - exfalso. apply (f_equal (@length A)) in E. cbn [length] in E.
    rewrite length_app in E. lia.
  - injection E as -> E. apply IH in E as [-> ->]. auto.
Qed.

Lemma pad2_inj (a b : N) : a < 100 -> b < 100 -> pad2 a = pad2 b -> a = b.
Proof.
  intros Ha Hb E.
  pose proof (digits_value_pad2 0 a [] Ha) as H1.
  pose proof (digits_value_pad2 0 b [] Hb) as H2.
  rewrite app_nil_r in H1, H2. rewrite E, H2 in H1. cbn [digits_value] in H1.
  injection H1 as H1. lia.
Qed.

Lemma year_digits_inj (a b : N) :
  a < 10000 -> b < 10000 -> year_digits a = year_digits b -> a = b.
Proof.
  intros Ha Hb E.
  pose proof (digits_value_year a [] Ha) as H1.
  pose proof (digits_value_year b [] Hb) as H2.
  rewrite app_nil_r in H1, H2. rewrite E, H2 in H1. cbn [digits_value] in H1.
  now injection H1.
Qed.

(** Two instants with the same stamp are within the same second. *)
Lemma strftime_inj (a b : datetime) :
  in_range a -> in_range b ->
  strftime_Ymd_HMS a = strftime_Ymd_HMS b -> same_second a b.
Proof.
  intros (Ya & Ma & Da & ha & ma & sa) (Yb & Mb & Db & hb & mb & sb) E.
  unfold strftime_Ymd_HMS in E.
  apply app_eq_length_r in E as [Ey E]; [|reflexivity].
  apply app_eq_length_r in E as [Em E]; [|reflexivity].
  apply app_eq_length_r in E as [Ed E]; [|reflexivity].
  apply app_inv_head in E.
  apply app_eq_length_r in E as [EH E]; [|reflexivity].
  apply app_eq_length_r in E as [EM ES]; [|reflexivity].
  apply year_digits_inj in Ey; [|assumption..].
  apply pad2_inj in Em, Ed, EH, EM, ES; try assumption.
  repeat split; assumption.
Qed.

Lemma same_second_key (a b : datetime) :
  same_second a b -> calendar_key a = calendar_key b.
Proof.
  intros (Hy & Hm & Hd & HH & HM & HS). unfold calendar_key. congruence.
Qed.

Lemma transcript_name_same_second (a b : datetime) :
  in_range a -> in_range b ->
  transcript_name a = transcript_name b -> same_second a b.
Proof.
  intros Ha Hb E. unfold transcript_name in E.
  apply app_inv_head in E. apply app_inv_tail in E.
  now apply strftime_inj.
Qed.

Lemma transcript_name_inj (a b : datetime) :
  in_range a -> in_range b ->
  transcript_name a = transcript_name b -> calendar_key a = calendar_key b.
Proof.
  intros Ha Hb E. now apply same_second_key, transcript_name_same_second.
Qed.

Lemma same_second_name (now1 now2 : datetime) :
  same_second now1 now2 -> transcript_name now1 = transcript_name now2.
Proof.
  intros (Hy & Hm & Hd & HH & HM & HS).
  unfold transcript_name, strftime_Ymd_HMS. congruence.
Qed.

(** C6. [save_chat_history] names its file after the clock alone, read to
    the second, and returns the path: [chat_histories/chat_<stamp>.json],
    whatever the session and the directory. Two saves within one
    wall-clock second return the same path, and after the second save the
    file holds the second session only: the directory is what the second
    save alone would have left. For instants whose fields are within the
    digits of the format, as those of a [datetime] are, the stamp is the
    date, an underscore and the time of day: its first part reads, in
    decimal digits, as the number year, month, day, its second part as the
    number hour, minute, second in six digits, and from year 1000 on the
    date has eight digits, so that the stamp is YYYYMMDD_HHMMSS; and a
    save in another second returns another path and leaves the file of
    the first save as it is. *)
Theorem save_chat_history_same_second
  (now1 now2 : datetime) (h1 h2 : session) (w : world) :
  same_second now1 now2 ->
  let name := str "chat_" ++ strftime_Ymd_HMS now1 ++ str ".json" in
  let w1 := world_of (save_chat_history now1 h1 w) in
  let w2 := world_of (save_chat_history now2 h2 w1) in
  value_of (save_chat_history now1 h1 w) = Ok (str "chat_histories/" ++ name)
  /\ value_of (save_chat_history now2 h2 w1) = Ok (str "chat_histories/" ++ name)
  /\ read_file (chat_histories w1) name = Some (dumps (json_of_session h1))
  /\ read_file (chat_histories w2) name = Some (dumps (json_of_session h2))
  /\ chat_histories w2 = chat_histories (world_of (save_chat_history now2 h2 w))
  /\ (in_range now1 ->
      exists date time,
        strftime_Ymd_HMS now1 = date ++ str "_" ++ time
        /\ number_of date = Some (year now1 * 10000 + month now1 * 100 + day now1)
        /\ number_of time = Some (hour now1 * 10000 + minute now1 * 100 + second now1)
        /\ length time = 6%nat
        /\ (1000 <= year now1 -> length date = 8%nat))
  /\ (forall (now3 : datetime) (h3 : session),
        in_range now1 -> in_range now3 -> ~ same_second now1 now3 ->
        let w3 := world_of (save_chat_history now3 h3 w1) in
        value_of (save_chat_history now3 h3 w1) <> Ok (str "chat_histories/" ++ name)
        /\ read_file (chat_histories w3) name = Some (dumps (json_of_session h1))).
Proof.
  intros Hsame. cbv zeta. fold (transcript_name now1).
  rewrite !save_chat_history_unfold. world_simpl.
  rewrite <- (same_second_name _ _ Hsame).
  rewrite write_write, !read_write_same.
  do 5 (split; [reflexivity|]).
  split; [apply strftime_reads|].
  intros now3 h3 R1 R3 Hne.
  assert (Hn : transcript_name now1 <> transcript_name now3).
  { intros E. apply Hne. now apply transcript_name_same_second. }
  rewrite save_chat_history_unfold. world_simpl. split.
  - intros E. apply Hn. apply (app_inv_head (str "chat_histories/")). symmetry; congruence.
  - rewrite read_write_other by exact Hn. apply read_write_same.
Qed.

(* ================================================================== *)
(** * Sorting by file name *)

Lemma text_leb_total (a b : text) : text_leb a b = false -> text_leb b a = true.
Proof.
  revert b; induction a as [|x a IH]; intros [|y b] H; simpl in *;
    try discriminate; try reflexivity.
  destruct (x <? y) eqn:Exy; [discriminate|].
  destruct (y <? x) eqn:Eyx; [reflexivity|]. auto.
Qed.

Lemma text_leb_trans (a b c : text) :
  text_leb a b = true -> text_leb b c = true -> text_leb a c = true.
Proof.
  revert b c; induction a as [|x a IH]; intros [|y b] [|z c] Hab Hbc; simpl in *;
    try discriminate; try reflexivity.
  destruct (x <? y) eqn:Exy, (y <? z) eqn:Eyz;
    repeat match goal with
           | H : (_ <? _) = true |- _ => apply N.ltb_lt in H
           | H : (_ <? _) = false |- _ => apply N.ltb_ge in H
           end.
  - assert ((x <? z) = true) as -> by (apply N.ltb_lt; lia). reflexivity.
  - destruct (z <? y) eqn:Ezy; [discriminate|]. apply N.ltb_ge in Ezy.
    assert ((x <? z) = true) as -> by (apply N.ltb_lt; lia). reflexivity.
  - destruct (y <? x) eqn:Eyx; [discriminate|]. apply N.ltb_ge in Eyx.
    assert ((x <? z) = true) as -> by (apply N.ltb_lt; lia). reflexivity.
  - destruct (y <? x) eqn:Eyx; [discriminate|]. apply N.ltb_ge in Eyx.
    destruct (z <? y) eqn:Ezy; [discriminate|]. apply N.ltb_ge in Ezy.
    assert (x = y) by lia. assert (y = z) by lia. subst.
    rewrite N.ltb_irrefl. eauto.
Qed.

Lemma insert_desc_perm (x : history_entry) (l : list history_entry) :
  Permutation (insert_desc x l) (x :: l).
Proof.
  induction l as [|y r IH]; simpl; [reflexivity|].
  destruct (text_leb (filename y) (filename x)); [reflexivity|].
  rewrite IH. apply perm_swap.
Qed.

Lemma sorted_perm (l : list history_entry) :
  Permutation (sorted_by_filename_desc l) l.
Proof.
  induction l as [|x l IH]; simpl; [reflexivity|].
  rewrite insert_desc_perm. now constructor.
Qed.

Lemma insert_desc_descending (x : history_entry) (l : list history_entry) :
  descending l -> descending (insert_desc x l).
Proof.
  unfold descending. induction 1 as [|y r Hr IH Hy]; simpl.
  - constructor; constructor.
  - destruct (text_leb (filename y) (filename x)) eqn:E.
    + constructor; [constructor; assumption|].
      constructor; [exact E|].
      eapply Forall_impl; [|exact Hy].
      intros z Hz. simpl in Hz. eapply text_leb_trans; eassumption.
    + constructor; [exact IH|].
      eapply Permutation_Forall; [symmetry; apply insert_desc_perm|].
      constructor; [|exact Hy]. now apply text_leb_total.
Qed.

Lemma sorted_descending (l : list history_entry) :
  descending (sorted_by_filename_desc l).
Proof.
  induction l as [|x l IH]; simpl.
  - constructor.
  - now apply insert_desc_descending.
Qed.

(* ================================================================== *)
(** * Loading the histories *)

Lemma log_opened_nil (w : world) : log_opened [] w = w.
Proof. destruct w. unfold log_opened. simpl. now rewrite app_nil_r. Qed.

Lemma log_opened_app (l1 l2 : list text) (w : world) :
  log_opened l2 (log_opened l1 w) = log_opened (l1 ++ l2) w.
Proof. unfold log_opened. simpl. now rewrite app_assoc. Qed.

Lemma path_join_cases (name : text) :
  (exists r, name = 47 :: r /\ path_join CHAT_HISTORY_DIR name = name)
  \/ path_join CHAT_HISTORY_DIR name = str "chat_histories/" ++ name.
Proof.
  destruct name as [|c r]; [right; reflexivity|].
  destruct (N.eq_dec c 47) as [->|Hc]; [left; eauto|right].
  unfold path_join.
  destruct c as [|p]; [reflexivity|].
  do 6 (destruct p as [p|p|]; try reflexivity).
  congruence.
Qed.

Lemma entry_of_join_inv (name n : text) :
  entry_of_path CHAT_HISTORY_DIR (path_join CHAT_HISTORY_DIR name) = Some n ->
  n = name /\ existsb (N.eqb 47) name = false.
Proof.
  unfold entry_of_path.
  change (CHAT_HISTORY_DIR ++ str "/") with (str "chat_histories/").
  destruct (path_join_cases name) as [(r & -> & ->)| ->].
  - cbn. discriminate.
  - rewrite strip_prefix_app.
    destruct (existsb (N.eqb 47) name); [discriminate|].
    intros [= <-]. auto.
Qed.

Lemma entry_of_join (name : text) :
  existsb (N.eqb 47) name = false ->
  entry_of_path CHAT_HISTORY_DIR (path_join CHAT_HISTORY_DIR name) = Some name.
Proof.
  intros H. unfold entry_of_path.
  change (CHAT_HISTORY_DIR ++ str "/") with (str "chat_histories/").
  destruct (path_join_cases name) as [(r & -> & _)| ->].
  - cbn in H. discriminate.
  - now rewrite strip_prefix_app, H.
Qed.

Lemma parse_file_Some (d : directory) (name : text) (e : history_entry) :
  parse_file d name = Some e -> transcript_of d name e.
Proof.
  unfold parse_file, transcript_of.
  destruct (entry_of_path _ _) as [n|] eqn:En; [|discriminate].
  apply entry_of_join_inv in En as [-> _].
  destruct (read_file d name) as [c|] eqn:Er; [|discriminate].
  destruct (loads c) as [v|] eqn:El; [|discriminate].
  intros [= <-]. simpl. eauto.
Qed.

Lemma parse_file_parses (d : directory) (name : text) :
  parses d name -> exists e, parse_file d name = Some e.
Proof.
  intros (Hn & c & v & Hr & Hl). unfold parse_file.
  rewrite (entry_of_join _ Hn), Hr, Hl. eauto.
Qed.

Lemma parse_file_malformed (d : directory) (name c : text) :
  read_file d name = Some c -> loads c = None -> parse_file d name = None.
Proof.
  intros Hr Hl. unfold parse_file.
  destruct (entry_of_path _ _) as [n|] eqn:En; [|reflexivity].
  apply entry_of_join_inv in En as [-> _].
  now rewrite Hr, Hl.
Qed.

Lemma load_loop_cons (filename : text) (rest : list text)
    (acc : list history_entry) (w : world) :
  load_loop (filename :: rest) acc w
  = if is_json filename then
      match parse_file (chat_histories w) filename with
      | Some e =>
        load_loop rest (acc ++ [e])
          (log_opened [path_join CHAT_HISTORY_DIR filename] w)
      | None =>
        (Raise (file_error (chat_histories w) filename),
         log_opened [path_join CHAT_HISTORY_DIR filename] w)
      end
    else load_loop rest acc w.
Proof.
  cbn [load_loop]. fold (is_json filename).
  destruct (is_json filename); [|reflexivity].
  unfold bind, open_read, parse_file, file_error, json_load. cbv zeta.
  destruct (entry_of_path _ _) as [n|]; [|reflexivity].
  destruct (read_file _ n) as [c|]; [|reflexivity].
  destruct (loads c); reflexivity.
Qed.

Lemma load_loop_ok (names : list text) (acc : list history_entry) (w : world) :
  (forall name, In name names -> is_json name = true ->
                exists e, parse_file (chat_histories w) name = Some e) ->
  exists es,
    Forall2 (fun name e => parse_file (chat_histories w) name = Some e)
            (filter is_json names) es
    /\ load_loop names acc w
       = (Ok (acc ++ es),
          log_opened (map (path_join CHAT_HISTORY_DIR) (filter is_json names)) w).
Proof.
  revert acc w. induction names as [|name rest IH]; intros acc w H.
  - exists []. split; [constructor|]. simpl. now rewrite app_nil_r, log_opened_nil.
  - rewrite load_loop_cons. cbn [filter].
    destruct (is_json name) eqn:Ej.
    + destruct (H name (or_introl eq_refl) Ej) as (e & He). rewrite He.
      destruct (IH (acc ++ [e]) (log_opened [path_join CHAT_HISTORY_DIR name] w))
        as (es & Hes & Hl).
      { intros n Hn. apply H. now right. }
      exists (e :: es). split; [constructor; assumption|].
      rewrite Hl, log_opened_app, <- app_assoc. reflexivity.
    + apply IH. intros n Hn. apply H. now right.
Qed.

Lemma load_loop_raise (names : list text) (acc : list history_entry) (w : world)
    (name : text) :
  In name names -> is_json name = true ->
  parse_file (chat_histories w) name = None ->
  exists e, value_of (load_loop names acc w) = Raise e.
Proof.
  revert acc w. induction names as [|n rest IH]; intros acc w Hin Hj Hp; [contradiction|].
  rewrite load_loop_cons.
  destruct (is_json n) eqn:Ej.
  - destruct (parse_file (chat_histories w) n) as [e|] eqn:Ep; [|eexists; reflexivity].
    destruct Hin as [->|Hin]; [congruence|].
    now apply IH.
  - destruct Hin as [->|Hin]; [congruence|].
    now apply IH.
Qed.

Lemma load_loop_world (names : list text) (acc : list history_entry) (w : world) :
  exists read,
    world_of (load_loop names acc w)
      = log_opened (map (path_join CHAT_HISTORY_DIR) read) w
    /\ Forall (fun n => is_json n = true /\ In n names) read.
Proof.
  revert acc w. induction names as [|n rest IH]; intros acc w.
  - exists []. simpl. now rewrite log_opened_nil.
  - rewrite load_loop_cons.
    destruct (is_json n) eqn:Ej.
    + destruct (parse_file _ n).
      * destruct (IH (acc ++ [h]) (log_opened [path_join CHAT_HISTORY_DIR n] w))
          as (read & Ho & Hf).
        exists (n :: read). split.
        -- rewrite Ho. now rewrite log_opened_app.
        -- constructor; [simpl; auto|].
           eapply Forall_impl; [|exact Hf]. simpl. intuition.
      * exists [n]. split; [reflexivity|]. constructor; simpl; auto.
    + destruct (IH acc w) as (read & Ho & Hf).
      exists read. split; [exact Ho|].
      eapply Forall_impl; [|exact Hf]. simpl. intuition.
Qed.

Lemma load_loop_entries (names : list text) (acc l : list history_entry) (w : world) :
  value_of (load_loop names acc w) = Ok l ->
  Forall (fun e => is_json (filename e) = true) acc ->
  Forall (fun e => is_json (filename e) = true) l.
Proof.
  revert acc w. induction names as [|n rest IH]; intros acc w.
  - simpl. intros [= <-]. auto.
  - rewrite load_loop_cons.
    destruct (is_json n) eqn:Ej; [|apply IH].
    destruct (parse_file _ n) as [e|] eqn:Ep; [|discriminate].
    intros Hv Hacc. eapply IH; [exact Hv|].
    apply Forall_app. split; [exact Hacc|]. constructor; [|constructor].
    apply parse_file_Some in Ep as [-> _]. exact Ej.
Qed.

Lemma load_chat_histories_unfold (w : world) :
  load_chat_histories w
  = match load_loop (listdir (chat_histories w)) [] w with
    | (Ok l, w') => (Ok (sorted_by_filename_desc l), w')
    | (Raise e, w') => (Raise e, w')
    end.
Proof. reflexivity. Qed.

Lemma load_chat_histories_world (w : world) :
  exists read,
    world_of (load_chat_histories w)
      = log_opened (map (path_join CHAT_HISTORY_DIR) read) w
    /\ Forall (fun n => is_json n = true /\ In n (listdir (chat_histories w))) read.
Proof.
  rewrite load_chat_histories_unfold.
  destruct (load_loop_world (listdir (chat_histories w)) [] w) as (read & Ho & Hf).
  exists read. split; [|exact Hf].
  destruct (load_loop _ _ _) as [[l|e] w']; exact Ho.
Qed.

(** A run of the script, whatever the page delivers, only appends to the
    session. *)
Lemma main_appends (llm : list text -> text -> outcome) (page : ui) (w : world) :
  exists added, session_of (world_of (main llm page w)) = session_of w ++ added.
Proof.
  unfold main. destruct (previous_chats page).
  - exists []. rewrite app_nil_r.
    unfold previous_chats_view, bind.
    destruct (load_chat_histories_world w) as (read & Ho & _).
    destruct (load_chat_histories w) as [[l|e] w']; unfold world_of in *;
      cbn [snd] in *; subst w'; reflexivity.
  - destruct (chat_input page) as [[|c p]|] eqn:Ein.
    + exists []. rewrite app_nil_r. apply current_chat_idle. now rewrite Ein.
    + destruct (current_chat_step llm page w (c :: p) Ein) as (reply & Hs & _);
        [discriminate|]. eexists. exact Hs.
    + exists []. rewrite app_nil_r. apply current_chat_idle. now rewrite Ein.
Qed.

Lemma read_filter_json (d : directory) (name : text) :
  is_json name = true ->
  read_file (filter (fun e => is_json (fst e)) d) name = read_file d name.
Proof.
  intros Hj. induction d as [|[n c] d IH]; simpl; [reflexivity|].
  destruct (is_json n) eqn:En; simpl.
  - now rewrite IH.
  - destruct (text_eqb n name) eqn:E; [|exact IH].
    apply text_eqb_eq in E. congruence.
Qed.

Lemma listdir_filter_json (d : directory) :
  listdir (filter (fun e => is_json (fst e)) d) = filter is_json (listdir d).
Proof.
  unfold listdir. induction d as [|[n c] d IH]; simpl; [reflexivity|].
  destruct (is_json n); simpl; now rewrite IH.
Qed.

Lemma filter_write_other (d : directory) (name c : text) :
  is_json name = false ->
  filter (fun e => is_json (fst e)) (write_file d name c)
  = filter (fun e => is_json (fst e)) d.
Proof.
  intros Hj. induction d as [|[n c0] d IH]; simpl.
  - now rewrite Hj.
  - destruct (text_eqb n name) eqn:E; simpl.
    + apply text_eqb_eq in E. subst n. now rewrite Hj.
    + now rewrite IH.
Qed.

Lemma parse_file_ext (d1 d2 : directory) (name : text) :
  read_file d1 name = read_file d2 name ->
  parse_file d1 name = parse_file d2 name /\ file_error d1 name = file_error d2 name.
Proof.
  intros H. unfold parse_file, file_error. cbv zeta.
  destruct (entry_of_path _ _) as [n|] eqn:En; [|auto].
  apply entry_of_join_inv in En as [-> _]. rewrite H. auto.
Qed.

(** The loop sees the directory only through the files whose names end
    in [.json]. *)
Lemma load_loop_filter (names : list text) (acc : list history_entry) (w1 w2 : world) :
  (forall n, is_json n = true ->
             read_file (chat_histories w1) n = read_file (chat_histories w2) n) ->
  opened w1 = opened w2 ->
  value_of (load_loop names acc w1) = value_of (load_loop (filter is_json names) acc w2)
  /\ opened (world_of (load_loop names acc w1))
     = opened (world_of (load_loop (filter is_json names) acc w2)).
Proof.
  revert acc w1 w2. induction names as [|n rest IH]; intros acc w1 w2 Hr Ho.
  - simpl. auto.
  - cbn [filter]. rewrite load_loop_cons.
    destruct (is_json n) eqn:Ej; [|now apply IH].
    rewrite load_loop_cons, Ej.
    destruct (parse_file_ext _ _ n (Hr n Ej)) as [-> ->].
    destruct (parse_file (chat_histories w2) n).
    + apply IH; [exact Hr|]. world_simpl. now rewrite Ho.
    + world_simpl. now rewrite Ho.
Qed.

Lemma filter_idem {A} (f : A -> bool) (l : list A) : filter f (filter f l) = filter f l.
Proof.
  induction l as [|x l IH]; simpl; [reflexivity|].
  destruct (f x) eqn:E; simpl; rewrite ?E, IH; reflexivity.
Qed.

Lemma load_chat_histories_ext (w1 w2 : world) :
  filter (fun e => is_json (fst e)) (chat_histories w1)
    = filter (fun e => is_json (fst e)) (chat_histories w2) ->
  opened w1 = opened w2 ->
  value_of (load_chat_histories w1) = value_of (load_chat_histories w2)
  /\ opened (world_of (load_chat_histories w1))
     = opened (world_of (load_chat_histories w2)).
Proof.
  intros Hf Ho. rewrite !load_chat_histories_unfold.
  assert (Hr : forall n, is_json n = true ->
             read_file (chat_histories w1) n = read_file (chat_histories w2) n).
  { intros n Hn. rewrite <- (read_filter_json (chat_histories w1)) by exact Hn.
    rewrite Hf. now apply read_filter_json. }
  destruct (load_loop_filter (listdir (chat_histories w1)) [] w1 w2 Hr Ho) as [Hv1 Ho1].
  destruct (load_loop_filter (listdir (chat_histories w2)) [] w2 w2 (fun _ _ => eq_refl) eq_refl)
    as [Hv2 Ho2].
  rewrite <- !listdir_filter_json, Hf in *. rewrite <- Hv2 in Hv1. rewrite <- Ho2 in Ho1.
  destruct (load_loop (listdir (chat_histories w1)) [] w1) as [[l1|e1] w1'],
           (load_loop (listdir (chat_histories w2)) [] w2) as [[l2|e2] w2'];
    unfold value_of, world_of in *; simpl in *; try discriminate;
    split; congruence.
Qed.

(** The load succeeds when every file it reads holds a JSON document;
    it returns their entries, sorted. *)
Lemma load_chat_histories_ok (w : world) :
  (forall name, In name (listdir (chat_histories w)) -> is_json name = true ->
                parses (chat_histories w) name) ->
  exists l entries,
    value_of (load_chat_histories w) = Ok l
    /\ descending l
    /\ Permutation entries l
    /\ Forall2 (transcript_of (chat_histories w))
               (filter is_json (listdir (chat_histories w))) entries.
Proof.
  intros Hparse.
  destruct (load_loop_ok (listdir (chat_histories w)) [] w) as (es & Hes & Hl).
  { intros name Hin Hj. apply parse_file_parses. now apply Hparse. }
  exists (sorted_by_filename_desc es), es.
  rewrite load_chat_histories_unfold, Hl. simpl.
  split; [reflexivity|]. split; [apply sorted_descending|].
  split; [symmetry; apply sorted_perm|].
  eapply Forall2_impl; [|exact Hes]. intros name e. apply parse_file_Some.
Qed.

(** C7. When the files of [chat_histories] whose names end in [.json] are
    transcripts (each can be opened and holds a JSON document),
    [load_chat_histories] returns one entry per such file, holding the
    file's name and its parsed document, and the entries come in descending
    lexicographic order of file name. *)
Theorem load_chat_histories_sorted (w : world) :
  (forall name, In name (listdir (chat_histories w)) ->
                endswith name (str ".json") = true ->
                parses (chat_histories w) name) ->
  exists l entries,
    value_of (load_chat_histories w) = Ok l
    /\ StronglySorted (fun a b => text_leb (filename b) (filename a) = true) l
    /\ Permutation entries l
    /\ Forall2 (transcript_of (chat_histories w))
               (filter (fun name => endswith name (str ".json"))
                       (listdir (chat_histories w))) entries.
Proof. exact (load_chat_histories_ok w). Qed.

(** C8. When a file of [chat_histories] whose name ends in [.json] does
    not parse, [load_chat_histories] raises: it returns no list at all, not
    the transcripts of the other files. *)
Theorem load_chat_histories_malformed (w : world) (name c : text) :
  read_file (chat_histories w) name = Some c ->
  endswith name (str ".json") = true ->
  loads c = None ->
  (exists e, value_of (load_chat_histories w) = Raise e)
  /\ (forall l, value_of (load_chat_histories w) <> Ok l).
Proof.
  intros Hr Hj Hl.
  destruct (load_loop_raise (listdir (chat_histories w)) [] w name) as (e & He).
  - eapply read_file_In; eassumption.
  - exact Hj.
  - eapply parse_file_malformed; eassumption.
  - rewrite load_chat_histories_unfold.
    destruct (load_loop _ _ _) as [[l|e'] w']; simpl in He; [discriminate|].
    split; [eexists; reflexivity|]. intros l. discriminate.
Qed.

(** C9. On an empty directory [load_chat_histories] returns the empty
    list; it does not raise, and it opens no file. *)
Theorem load_chat_histories_empty (w : world) :
  chat_histories w = [] ->
  load_chat_histories w = (Ok [], w).
Proof.
  intros H. rewrite load_chat_histories_unfold, H. reflexivity.
Qed.

(** C2. Starting from an empty session, after the chat loop has processed
    [n] user inputs the session holds exactly [2 * n] messages whose roles
    are user, assistant, user, assistant, ...; and a run of [main],
    whatever the page delivers, only appends to the session. (An empty
    input is not processed; when no input is empty, [n] is the number of
    inputs.) *)
Theorem chat_loop_session
  (llm : list text -> text -> outcome) (now : datetime) (inputs : list text)
  (w : world) :
  session_of w = [] ->
  let final := session_of (world_of (chat_loop llm now inputs w)) in
  let n := processed inputs in
  value_of (chat_loop llm now inputs w) = Ok tt
  /\ length final = (2 * n)%nat
  /\ map role final = concat (repeat [str "user"; str "assistant"] n)
  /\ (Forall (fun i => i <> []) inputs -> n = length inputs)
  /\ (forall page w0, exists added,
        session_of (world_of (main llm page w0)) = session_of w0 ++ added).
Proof.
  intros Hempty. cbv zeta.
  destruct (chat_loop_appends llm now inputs w) as (Hok & added & Hs & Hr).
  rewrite Hempty in Hs. cbn [app] in Hs. rewrite Hs.
  split; [exact Hok|]. split; [|split; [exact Hr|split]].
  - rewrite <- (length_map role), Hr. clear.
    induction (processed inputs) as [|n IH]; [reflexivity|].
    cbn [repeat concat]. rewrite length_app, IH. simpl. lia.
  - clear. unfold processed. induction 1 as [|i l Hi _ IH]; [reflexivity|].
    cbn [filter]. destruct i; [congruence|]. cbn [truthy length]. f_equal. exact IH.
  - intros page w0. apply main_appends.
Qed.

(* ================================================================== *)
(** * [json]: what is dumped loads back *)

Lemma hexval_hexdigit (d : N) : d < 16 -> hexval (hexdigit d) = Some d.
Proof.
  intros H.
  assert (d = 0 \/ d = 1 \/ d = 2 \/ d = 3 \/ d = 4 \/ d = 5 \/ d = 6 \/ d = 7 \/
          d = 8 \/ d = 9 \/ d = 10 \/ d = 11 \/ d = 12 \/ d = 13 \/ d = 14 \/ d = 15)
    as Hd by lia.
  repeat (destruct Hd as [->|Hd]; [reflexivity|]). subst. reflexivity.
Qed.

Lemma hex4_u_escape (n : N) :
  n < 65536 ->
  hex4 (hexdigit (n / 4096)) (hexdigit ((n / 256) mod 16))
       (hexdigit ((n / 16) mod 16)) (hexdigit (n mod 16)) = Some n.
Proof.
  intros H. unfold hex4.
  rewrite !hexval_hexdigit by lia.
  f_equal. lia.
Qed.

Lemma scanstring_plain (c : N) (rest : text) :
  c <> 34 -> c <> 92 -> 32 <= c ->
  scanstring (c :: rest) = emit c (scanstring rest).
Proof.
  intros H1 H2 H3. cbn [scanstring].
  apply N.eqb_neq in H1, H2. rewrite H1, H2.
  assert ((c <? 32) = false) as -> by (apply N.ltb_ge; exact H3).
  reflexivity.
Qed.

Lemma scanstring_u (a b c d uni : N) (rest : text) :
  hex4 a b c d = Some uni -> is_high_surrogate uni = false ->
  scanstring (92 :: 117 :: a :: b :: c :: d :: rest) = emit uni (scanstring rest).
Proof.
  intros H1 H2. cbn [scanstring]. closed_tests. cbv iota.
  rewrite H1. cbv zeta. rewrite H2. reflexivity.
Qed.

Lemma scanstring_pair (a b c d a2 b2 c2 d2 hi lo : N) (rest : text) :
  hex4 a b c d = Some hi -> is_high_surrogate hi = true ->
  hex4 a2 b2 c2 d2 = Some lo -> is_low_surrogate lo = true ->
  scanstring (92 :: 117 :: a :: b :: c :: d :: 92 :: 117 :: a2 :: b2 :: c2 :: d2 :: rest)
  = emit (join_surrogates hi lo) (scanstring rest).
Proof.
  intros H1 H2 H3 H4.
  change (scanstring (92 :: 117 :: a :: b :: c :: d :: 92 :: 117 :: a2 :: b2 :: c2 :: d2 :: rest))
    with (match hex4 a b c d with
          | None => None
          | Some uni =>
            let single := emit uni (scanstring (92 :: 117 :: a2 :: b2 :: c2 :: d2 :: rest)) in
            if is_high_surrogate uni then
              match hex4 a2 b2 c2 d2 with
              | None => None
              | Some uni2 =>
                if is_low_surrogate uni2
                then emit (join_surrogates uni uni2) (scanstring rest)
                else single
              end
            else single
          end).
  rewrite H1. cbv zeta. rewrite H2, H3, H4. reflexivity.
Qed.

Lemma lor_disjoint (a x : N) : x < 1024 -> N.lor (a * 1024) x = a * 1024 + x.
Proof.
  intros H.
  assert (Hl : N.land (a * 1024) x = 0).
  { apply N.bits_inj. intros i. rewrite N.land_spec, N.bits_0.
    destruct (N.lt_ge_cases i 10) as [Hi|Hi].
    - change 1024 with (2 ^ 10). rewrite N.mul_pow2_bits_low by exact Hi. reflexivity.
    - replace x with (x mod 2 ^ 10) by (apply N.mod_small; exact H).
      rewrite N.mod_pow2_bits_high by exact Hi. apply andb_false_r. }
  rewrite <- N.lxor_lor by exact Hl. symmetry. now apply N.add_nocarry_lxor.
Qed.

Lemma surrogates_of_astral (c : N) :
  65536 <= c < 1114112 ->
  let n := c - 65536 in
  let s1 := N.lor 55296 (N.land (N.shiftr n 10) 1023) in
  let s2 := N.lor 56320 (N.land n 1023) in
  s1 = 55296 + n / 1024 /\ s2 = 56320 + n mod 1024
  /\ join_surrogates s1 s2 = c.
Proof.
  intros H. cbv zeta.
  assert (E1 : N.lor 55296 (N.land (N.shiftr (c - 65536) 10) 1023)
               = 55296 + (c - 65536) / 1024).
  { rewrite N.shiftr_div_pow2. change (2 ^ 10) with 1024.
    change 1023 with (N.ones 10). rewrite N.land_ones. change (2 ^ 10) with 1024.
    rewrite N.mod_small by lia.
    change 55296 with (54 * 1024). apply lor_disjoint. lia. }
  assert (E2 : N.lor 56320 (N.land (c - 65536) 1023) = 56320 + (c - 65536) mod 1024).
  { change 1023 with (N.ones 10). rewrite N.land_ones. change (2 ^ 10) with 1024.
    change 56320 with (55 * 1024). apply lor_disjoint. lia. }
  split; [exact E1|]. split; [exact E2|].
  rewrite E1, E2. unfold join_surrogates.
  rewrite N.shiftl_mul_pow2. change (2 ^ 10) with 1024.
  replace (55296 + (c - 65536) / 1024 - 55296) with ((c - 65536) / 1024) by lia.
  replace (56320 + (c - 65536) mod 1024 - 56320) with ((c - 65536) mod 1024) by lia.
  rewrite lor_disjoint by lia. lia.
Qed.

Lemma scanstring_escape_char (c : N) (rest : text) :
  scalar c ->
  scanstring (escape_char c ++ rest) = emit c (scanstring rest).
Proof.
  intros [Hmax Hsur]. unfold escape_char.
  destruct (c =? 34) eqn:E34; [apply N.eqb_eq in E34; subst; reflexivity|].
  destruct (c =? 92) eqn:E92; [apply N.eqb_eq in E92; subst; reflexivity|].
  apply N.eqb_neq in E34, E92.
  destruct ((32 <=? c) && (c <=? 126)) eqn:Ep.
  { apply andb_true_iff in Ep as [Hlo _]. apply N.leb_le in Hlo.
    now apply scanstring_plain. }
  destruct (c =? 10) eqn:E10; [apply N.eqb_eq in E10; subst; reflexivity|].
  destruct (c =? 13) eqn:E13; [apply N.eqb_eq in E13; subst; reflexivity|].
  destruct (c =? 9) eqn:E9; [apply N.eqb_eq in E9; subst; reflexivity|].
  destruct (c =? 8) eqn:E8; [apply N.eqb_eq in E8; subst; reflexivity|].
  destruct (c =? 12) eqn:E12; [apply N.eqb_eq in E12; subst; reflexivity|].
  destruct (c <? 65536) eqn:Eb.
  - apply N.ltb_lt in Eb. unfold u_escape. cbn [app].
    apply scanstring_u; [now apply hex4_u_escape|].
    unfold is_high_surrogate. apply andb_false_iff.
    destruct (N.le_gt_cases 55296 c); [right|left].
    + apply N.leb_gt. lia.
    + apply N.leb_gt. lia.
  - apply N.ltb_ge in Eb. cbv zeta.
    destruct (surrogates_of_astral c (conj Eb Hmax)) as (E1 & E2 & Ej).
    cbv zeta in E1, E2, Ej.
    set (s1 := N.lor 55296 _) in *. set (s2 := N.lor 56320 _) in *.
    unfold u_escape. cbn [app].
    rewrite <- Ej.
    apply scanstring_pair.
    + apply hex4_u_escape. lia.
    + unfold is_high_surrogate. apply andb_true_iff. split; apply N.leb_le; lia.
    + apply hex4_u_escape. lia.
    + unfold is_low_surrogate. apply andb_true_iff. split; apply N.leb_le; lia.
Qed.

(** The decoder reads back what the encoder wrote for a string. *)
Lemma scanstring_escape (s rest : text) :
  well_formed_text s ->
  scanstring (escape s ++ 34 :: rest) = Some (s, rest).
Proof.
  induction 1 as [|c s Hc _ IH]; [reflexivity|].
  unfold escape in *. cbn [flat_map]. rewrite <- app_assoc.
  rewrite scanstring_escape_char by exact Hc.
  rewrite IH. reflexivity.
Qed.

Lemma skip_ws_stop (c : N) (r : text) : is_ws c = false -> skip_ws (c :: r) = c :: r.
Proof. unfold is_ws. intros H. cbn [skip_ws]. now rewrite H. Qed.

Lemma skip_ws_space (r : text) : skip_ws (32 :: r) = skip_ws r.
Proof. reflexivity. Qed.

Lemma skip_ws_spaces (n : nat) (r : text) : skip_ws (repeat 32 n ++ r) = skip_ws r.
Proof. induction n as [|n IH]; [reflexivity|exact IH]. Qed.

Lemma skip_ws_newline_indent (k : nat) (r : text) :
  skip_ws (newline_indent k ++ r) = skip_ws r.
Proof. unfold newline_indent. cbn [app]. apply skip_ws_spaces. Qed.

Lemma scan_once_string (fuel : nat) (s : text) :
  scan_once (S fuel) (34 :: s)
  = match scanstring s with
    | Some (t, rest) => Parsed (JString t) rest
    | None => Invalid
    end.
Proof. reflexivity. Qed.

Lemma scan_once_object (fuel : nat) (s s1 : text) :
  skip_ws s = 34 :: s1 ->
  scan_once (S fuel) (123 :: s)
  = match object_members fuel s1 with
    | Parsed pairs rest => Parsed (JObject (dict_of_pairs pairs)) rest
    | Invalid => Invalid
    | OutOfFuel => OutOfFuel
    end.
Proof. intros H. cbn [scan_once]. closed_tests. cbv iota. rewrite H. reflexivity. Qed.

Lemma scan_once_array (fuel : nat) (s s1 : text) (c1 : N) :
  skip_ws s = c1 :: s1 -> c1 <> 93 ->
  scan_once (S fuel) (91 :: s)
  = match array_items fuel (c1 :: s1) with
    | Parsed items rest => Parsed (JArray items) rest
    | Invalid => Invalid
    | OutOfFuel => OutOfFuel
    end.
Proof.
  intros H Hc. cbn [scan_once]. closed_tests. cbv iota. rewrite H.
  change (ord "]") with 93. apply N.eqb_neq in Hc. rewrite Hc. reflexivity.
Qed.

Lemma object_members_last (fuel : nat) (s key r r1 r3 : text) (v : json) :
  scanstring s = Some (key, r) ->
  skip_ws r = 58 :: r1 ->
  (exists r2, scan_once fuel (skip_ws r1) = Parsed v r2 /\ skip_ws r2 = 125 :: r3) ->
  object_members (S fuel) s = Parsed [(key, v)] r3.
Proof.
  intros H1 H2 (r2 & H3 & H4). cbn [object_members].
  rewrite H1, H2. closed_tests. cbv iota. rewrite H3, H4. reflexivity.
Qed.

Lemma object_members_more (fuel : nat) (s key r r1 r3 r4 rest : text) (v : json)
    (ms : list (text * json)) :
  scanstring s = Some (key, r) ->
  skip_ws r = 58 :: r1 ->
  (exists r2, scan_once fuel (skip_ws r1) = Parsed v r2 /\ skip_ws r2 = 44 :: r3) ->
  skip_ws r3 = 34 :: r4 ->
  object_members fuel r4 = Parsed ms rest ->
  object_members (S fuel) s = Parsed ((key, v) :: ms) rest.
Proof.
  intros H1 H2 (r2 & H3 & H4) H5 H6. cbn [object_members].
  rewrite H1, H2. closed_tests. cbv iota. rewrite H3, H4.
  closed_tests. cbv iota. rewrite H5. closed_tests. cbv iota. rewrite H6. reflexivity.
Qed.

Lemma array_items_last (fuel : nat) (s r r1 : text) (v : json) :
  scan_once fuel s = Parsed v r -> skip_ws r = 93 :: r1 ->
  array_items (S fuel) s = Parsed [v] r1.
Proof. intros H1 H2. cbn [array_items]. rewrite H1, H2. reflexivity. Qed.

Lemma array_items_more (fuel : nat) (s r r1 rest : text) (v : json) (vs : list json) :
  scan_once fuel s = Parsed v r -> skip_ws r = 44 :: r1 ->
  array_items fuel (skip_ws r1) = Parsed vs rest ->
  array_items (S fuel) s = Parsed (v :: vs) rest.
Proof.
  intros H1 H2 H3. cbn [array_items]. rewrite H1, H2.
  closed_tests. cbv iota. rewrite H3. reflexivity.
Qed.

(** The text [json.dump] writes for one message, inside the list. *)
Lemma encode_message (m : message) :
  encode 1 (json_of_message m)
  = 123 :: newline_indent 2
      ++ 34 :: escape (str "role") ++ 34 :: 58 :: 32
      :: 34 :: escape (role m) ++ 34 :: 44 :: newline_indent 2
      ++ 34 :: escape (str "content") ++ 34 :: 58 :: 32
      :: 34 :: escape (content m) ++ 34 :: newline_indent 1 ++ [125].
Proof.
  unfold json_of_message. cbn [encode map join fst snd].
  unfold encode_basestring_ascii.
  change (str "{") with [123]. change (str ": ") with [58; 32].
  change (str ",") with [44]. change (str "}") with [125].
  repeat (rewrite <- ?app_assoc; cbn [app]). reflexivity.
Qed.

Lemma well_formed_ascii_role : well_formed_text (str "role").
Proof. repeat constructor; unfold scalar; cbn; lia. Qed.

Lemma well_formed_ascii_content : well_formed_text (str "content").
Proof. repeat constructor; unfold scalar; cbn; lia. Qed.

(** The decoder reads back the object of a message. *)
Lemma scan_once_message (fuel : nat) (m : message) (rest : text) :
  well_formed_text (role m) -> well_formed_text (content m) ->
  scan_once (4 + fuel) (encode 1 (json_of_message m) ++ rest)
  = Parsed (json_of_message m) rest.
Proof.
  intros Hr Hc. rewrite encode_message.
  repeat (rewrite <- ?app_assoc; cbn [app]).
  cbn [Nat.add].
  erewrite scan_once_object;
    [|rewrite skip_ws_newline_indent; apply skip_ws_stop; reflexivity].
  erewrite object_members_more; cycle 1.
  - apply scanstring_escape, well_formed_ascii_role.
  - apply skip_ws_stop. reflexivity.
  - eexists. split.
    + rewrite skip_ws_space, skip_ws_stop by reflexivity. rewrite scan_once_string.
      rewrite scanstring_escape by exact Hr. reflexivity.
    + apply skip_ws_stop. reflexivity.
  - rewrite skip_ws_newline_indent. apply skip_ws_stop. reflexivity.
  - eapply object_members_last.
    + apply scanstring_escape, well_formed_ascii_content.
    + apply skip_ws_stop. reflexivity.
    + eexists. split.
      * rewrite skip_ws_space, skip_ws_stop by reflexivity. rewrite scan_once_string.
        rewrite scanstring_escape by exact Hc. reflexivity.
      * rewrite skip_ws_newline_indent. apply skip_ws_stop. reflexivity.
  - reflexivity.
Qed.

Lemma dumps_session_cons (m : message) (ms : session) :
  dumps (json_of_session (m :: ms))
  = 91 :: newline_indent 1 ++ items_text (m :: ms) ++ [10; 93].
Proof.
  unfold dumps, json_of_session, items_text. cbn [map encode].
  change (str "[") with [91]. change (str ",") with [44]. change (str "]") with [93].
  change (newline_indent 0) with [10].
  cbn [app]. repeat (rewrite <- ?app_assoc; cbn [app]). reflexivity.
Qed.

Lemma items_text_cons (m : message) (ms : session) :
  items_text (m :: ms)
  = encode 1 (json_of_message m)
      ++ match ms with
         | [] => []
         | _ :: _ => 44 :: newline_indent 1 ++ items_text ms
         end.
Proof.
  unfold items_text. cbn [map join].
  destruct ms as [|m' ms]; cbn [map]; [now rewrite app_nil_r|reflexivity].
Qed.

Lemma items_text_start (m : message) (ms : session) (r : text) :
  exists t, items_text (m :: ms) ++ r = 123 :: t.
Proof.
  rewrite items_text_cons, encode_message. cbn [app]. eauto.
Qed.

Lemma items_text_length (h : session) : (length h <= length (items_text h))%nat.
Proof.
  induction h as [|m ms IH]; [simpl; lia|].
  rewrite items_text_cons, encode_message. cbn [length app].
  destruct ms as [|m' ms]; [simpl; lia|].
  rewrite !length_app. cbn [length] in *. rewrite !length_app. cbn [length]. lia.
Qed.

(** The decoder reads back the items of the dumped list. *)
Lemma array_items_session (ms : session) (m : message) (fuel : nat) (rest : text) :
  well_formed_session (m :: ms) ->
  array_items (length ms + 5 + fuel) (items_text (m :: ms) ++ 10 :: 93 :: rest)
  = Parsed (map json_of_message (m :: ms)) rest.
Proof.
  revert m fuel. induction ms as [|m' ms IH]; intros m fuel Hwf;
    inversion Hwf as [|? ? [Hr Hc] Hwf']; subst.
  - rewrite items_text_cons, app_nil_r.
    change (length (@nil message) + 5 + fuel)%nat with (S (4 + fuel)).
    eapply array_items_last.
    + apply (scan_once_message fuel); assumption.
    + reflexivity.
  - rewrite items_text_cons. rewrite <- app_assoc. cbn [app].
    rewrite <- app_assoc.
    replace (length (m' :: ms) + 5 + fuel)%nat with (S (4 + S (length ms + fuel)))
      by (cbn [length]; lia).
    eapply array_items_more.
    + apply (scan_once_message (S (length ms + fuel))); assumption.
    + reflexivity.
    + rewrite skip_ws_newline_indent.
      destruct (items_text_start m' ms (10 :: 93 :: rest)) as (t & Ht).
      rewrite Ht, skip_ws_stop by reflexivity. rewrite <- Ht.
      replace (4 + S (length ms + fuel))%nat with (length ms + 5 + fuel)%nat by lia.
      now apply IH.
Qed.

(** [json.load] gives back the session [json.dump] was given, when its
    texts are well formed. *)
Theorem loads_dumps_session (h : session) :
  well_formed_session h ->
  loads (dumps (json_of_session h)) = Some (json_of_session h).
Proof.
  intros Hwf. destruct h as [|m ms]; [reflexivity|].
  rewrite dumps_session_cons. unfold loads.
  rewrite skip_ws_stop by reflexivity.
  destruct (items_text_start m ms [10; 93]) as (t & Ht).
  unfold budget.
  set (n := length (91 :: newline_indent 1 ++ items_text (m :: ms) ++ [10; 93])).
  assert (Hn : exists k, (2 * n + 1 = S (length ms + 5 + k))%nat).
  { exists (2 * n - length ms - 5)%nat. subst n. cbn [length].
    rewrite !length_app. pose proof (items_text_length (m :: ms)) as Hl.
    cbn [length] in Hl |- *. lia. }
  destruct Hn as (k & ->).
  erewrite scan_once_array;
    [|rewrite skip_ws_newline_indent, Ht; apply skip_ws_stop; reflexivity|discriminate].
  rewrite <- Ht.
  rewrite (array_items_session ms m k []) by exact Hwf.
  reflexivity.
Qed.

(** The condition on the texts is needed: a string that spells a
    character above the basic plane as two surrogate code points comes back
    as that one character. *)
Example loads_dumps_surrogates :
  loads (dumps (json_of_session [user_message [55357; 56832]]))
  = Some (json_of_session [user_message [128512]]).
Proof. vm_compute. reflexivity. Qed.

(* ================================================================== *)
(** * [json.load] never exhausts its budget *)

Lemma skip_ws_length (s : text) : (length (skip_ws s) <= length s)%nat.
Proof.
  induction s as [|c s IH]; simpl; [lia|].
  destruct (_ || _); simpl; lia.
Qed.

Lemma skip_ws_cons_length (s r : text) (c : N) :
  skip_ws s = c :: r -> (length r < length s)%nat.
Proof.
  intros H. pose proof (skip_ws_length s) as Hl. rewrite H in Hl. simpl in Hl. lia.
Qed.

Lemma emit_Some (c : N) (x : option (text * text)) (t r : text) :
  emit c x = Some (t, r) -> exists t', x = Some (t', r).
Proof.
  destruct x as [[t' r']|]; simpl; [|discriminate].
  intros [= <- <-]. eauto.
Qed.

Lemma scanstring_progress_bounded (n : nat) (s t r : text) :
  (length s <= n)%nat ->
  scanstring s = Some (t, r) -> (length r < length s)%nat.
Proof.
  revert s t r. induction n as [|n IH]; intros s t r Hle H.
  - destruct s; [discriminate|simpl in Hle; lia].
  - assert (Hrec : forall c s' t' , (length s' <= n)%nat ->
              emit c (scanstring s') = Some (t', r) -> (length r < S (length s'))%nat).
    { intros c s' t' Hs He. apply emit_Some in He as (t'' & He).
      apply IH in He; [lia|exact Hs]. }
    destruct s as [|c s1]; [discriminate|]. cbn [scanstring] in H. cbn [length] in *.
    destruct (c =? 34); [injection H as <- <-; lia|].
    destruct (c =? 92).
    + destruct s1 as [|e s2]; [discriminate|]. cbn [length] in *.
      destruct (e =? 117).
      * destruct s2 as [|a [|b [|c' [|d s3]]]]; try discriminate. cbn [length] in *.
        destruct (hex4 a b c' d) as [uni|]; [|discriminate]. cbv zeta in H.
        destruct (is_high_surrogate uni);
          [|apply Hrec in H; lia].
        destruct s3 as [|b1 [|u1 [|a2 [|b2 [|c2 [|d2 s4]]]]]];
          try (apply Hrec in H; cbn [length] in *; lia).
        cbn [length] in *.
        destruct ((b1 =? 92) && (u1 =? 117));
          [|apply Hrec in H; cbn [length] in *; lia].
        destruct (hex4 a2 b2 c2 d2) as [uni2|]; [|discriminate].
        destruct (is_low_surrogate uni2); apply Hrec in H; cbn [length] in *; lia.
      * destruct (unescape e); [|discriminate]. apply Hrec in H; lia.
    + destruct (c <? 32); [discriminate|]. apply Hrec in H; lia.
Qed.

Lemma scanstring_progress (s t r : text) :
  scanstring s = Some (t, r) -> (length r < length s)%nat.
Proof. apply (scanstring_progress_bounded (length s)). lia. Qed.

Lemma span_digits_length (s : text) :
  (length (snd (span_digits s)) <= length s)%nat.
Proof.
  induction s as [|c s IH]; simpl; [lia|].
  destruct (is_digit c); simpl; [|lia].
  destruct (span_digits s). simpl in *. lia.
Qed.

Lemma scan_frac_length (s : text) : (length (snd (scan_frac s)) <= length s)%nat.
Proof.
  unfold scan_frac. destruct s as [|c s]; simpl; [lia|].
  destruct (c =? 46); simpl; [|lia].
  pose proof (span_digits_length s) as H.
  destruct (span_digits s) as [[|x ds] r]; simpl in *; lia.
Qed.

Lemma scan_exp_length (s : text) : (length (snd (scan_exp s)) <= length s)%nat.
Proof.
  unfold scan_exp. destruct s as [|e s]; simpl; [lia|].
  destruct (_ || _); simpl; [|lia].
  destruct s as [|g t].
  - simpl. lia.
  - destruct (_ || _).
    + pose proof (span_digits_length t) as H.
      destruct (span_digits t) as [[|x ds] r]; simpl in *; lia.
    + pose proof (span_digits_length (g :: t)) as H.
      destruct (span_digits (g :: t)) as [[|x ds] r]; simpl in *; lia.
Qed.

Lemma scan_number_progress (s lit r : text) :
  scan_number s = Some (lit, r) -> (length r < length s)%nat.
Proof.
  unfold scan_number.
  set (p := match s with
            | c :: s' => if c =? 45 then ([c], s') else ([], s)
            | [] => ([], s)
            end).
  assert (Hp : (length (snd p) <= length s)%nat).
  { subst p. destruct s as [|c s']; simpl; [lia|]. destruct (c =? 45); simpl; lia. }
  destruct p as [sign s0]. cbn [snd] in Hp.
  destruct (scan_int s0) as [[int s1]|] eqn:Ei; [|discriminate].
  assert (Hi : (length s1 < length s0)%nat).
  { unfold scan_int in Ei. destruct s0 as [|c s']; [discriminate|].
    destruct (c =? 48); [injection Ei as <- <-; simpl; lia|].
    destruct (is_digit c); [|discriminate].
    pose proof (span_digits_length s') as Hd.
    destruct (span_digits s') as [ds r']. injection Ei as <- <-. simpl in *. lia. }
  pose proof (scan_frac_length s1) as Hf. destruct (scan_frac s1) as [frac s2].
  pose proof (scan_exp_length s2) as He. destruct (scan_exp s2) as [exp s3].
  intros [= <- <-]. simpl in *. lia.
Qed.

Lemma literal_or_progress (lit : string) (v v' : json) (s r : text) (otherwise : scan json) :
  lit <> EmptyString ->
  (otherwise = Parsed v' r -> (length r < length s)%nat) ->
  literal_or lit v s otherwise = Parsed v' r -> (length r < length s)%nat.
Proof.
  intros Hlit Ho. unfold literal_or.
  destruct (strip_prefix (str lit) s) as [rest|] eqn:E; [|exact Ho].
  intros [= <- <-]. apply strip_prefix_Some in E. subst s.
  rewrite length_app. destruct lit; [congruence|]. simpl. lia.
Qed.

Lemma literal_or_fuel (lit : string) (v : json) (s : text) (otherwise : scan json) :
  otherwise <> OutOfFuel -> literal_or lit v s otherwise <> OutOfFuel.
Proof.
  intros Ho. unfold literal_or. destruct (strip_prefix _ _); [discriminate|exact Ho].
Qed.

(** Every scanning function consumes at least one character. *)
Lemma scan_progress (fuel : nat) :
  (forall s v r, scan_once fuel s = Parsed v r -> (length r < length s)%nat)
  /\ (forall s vs r, array_items fuel s = Parsed vs r -> (length r < length s)%nat)
  /\ (forall s ms r, object_members fuel s = Parsed ms r -> (length r < length s)%nat).
Proof.
  induction fuel as [|fuel (IHo & IHa & IHm)];
    [repeat split; intros; discriminate|].
  split; [|split].
  - intros s v r H. cbn [scan_once] in H.
    destruct s as [|c s']; [discriminate|]. cbn [length].
    destruct (c =? 34).
    { destruct (scanstring s') as [[t rest]|] eqn:Es; [|discriminate].
      injection H as <- <-. apply scanstring_progress in Es. lia. }
    destruct (c =? ord "{").
    { destruct (skip_ws s') as [|c1 s1] eqn:Ew; [discriminate|].
      apply skip_ws_cons_length in Ew.
      destruct (c1 =? ord "}"); [injection H as <- <-; lia|].
      destruct (c1 =? 34); [|discriminate].
      destruct (object_members fuel s1) as [pairs rest| |] eqn:Em; try discriminate.
      injection H as <- <-. apply IHm in Em. lia. }
    destruct (c =? ord "[").
    { pose proof (skip_ws_length s') as Hw.
      destruct (skip_ws s') as [|c1 s1] eqn:Ew; [discriminate|].
      destruct (c1 =? ord "]"); [injection H as <- <-; cbn [length] in Hw; lia|].
      destruct (array_items fuel (c1 :: s1)) as [items rest| |] eqn:Ea; try discriminate.
      injection H as <- <-. apply IHa in Ea. lia. }
    change (S (length s')) with (length (c :: s')).
    revert H.
    repeat (apply literal_or_progress; [discriminate|]).
    destruct (scan_number (c :: s')) as [[literal rest]|] eqn:En.
    { intros [= <- <-]. now apply scan_number_progress in En. }
    repeat (apply literal_or_progress; [discriminate|]).
    discriminate.
  - intros s vs r H. cbn [array_items] in H.
    destruct (scan_once fuel s) as [v r0| |] eqn:Eo; try discriminate.
    apply IHo in Eo.
    destruct (skip_ws r0) as [|c r1] eqn:Ew; [discriminate|].
    apply skip_ws_cons_length in Ew.
    destruct (c =? ord "]"); [injection H as <- <-; lia|].
    destruct (c =? ord ","); [|discriminate].
    destruct (array_items fuel (skip_ws r1)) as [vs' rest| |] eqn:Ea; try discriminate.
    injection H as <- <-. apply IHa in Ea.
    pose proof (skip_ws_length r1). lia.
  - intros s ms r H. cbn [object_members] in H.
    destruct (scanstring s) as [[key r0]|] eqn:Es; [|discriminate].
    apply scanstring_progress in Es.
    destruct (skip_ws r0) as [|c r1] eqn:Ew; [discriminate|].
    apply skip_ws_cons_length in Ew.
    destruct (c =? ord ":"); [|discriminate].
    destruct (scan_once fuel (skip_ws r1)) as [v r2| |] eqn:Eo; try discriminate.
    apply IHo in Eo. pose proof (skip_ws_length r1).
    destruct (skip_ws r2) as [|c2 r3] eqn:Ew2; [discriminate|].
    apply skip_ws_cons_length in Ew2.
    destruct (c2 =? ord "}"); [injection H as <- <-; lia|].
    destruct (c2 =? ord ","); [|discriminate].
    destruct (skip_ws r3) as [|c3 r4] eqn:Ew3; [discriminate|].
    apply skip_ws_cons_length in Ew3.
    destruct (c3 =? 34); [|discriminate].
    destruct (object_members fuel r4) as [ms' rest| |] eqn:Em; try discriminate.
    injection H as <- <-. apply IHm in Em. lia.
Qed.

(** Two units of budget per character are enough. *)
Lemma scan_fuel (fuel : nat) :
  (forall s, (2 * length s + 1 <= fuel)%nat -> scan_once fuel s <> OutOfFuel)
  /\ (forall s, (2 * length s + 2 <= fuel)%nat -> array_items fuel s <> OutOfFuel)
  /\ (forall s, (2 * length s + 2 <= fuel)%nat -> object_members fuel s <> OutOfFuel).
Proof.
  induction fuel as [|fuel (IHo & IHa & IHm)]; [repeat split; intros; lia|].
  destruct (scan_progress fuel) as (Po & Pa & Pm).
  split; [|split].
  - intros s Hf. cbn [scan_once].
    destruct s as [|c s']; [discriminate|]. cbn [length] in Hf.
    destruct (c =? 34); [destruct (scanstring s') as [[? ?]|]; discriminate|].
    destruct (c =? ord "{").
    { destruct (skip_ws s') as [|c1 s1] eqn:Ew; [discriminate|].
      apply skip_ws_cons_length in Ew.
      destruct (c1 =? ord "}"); [discriminate|].
      destruct (c1 =? 34); [|discriminate].
      specialize (IHm s1). destruct (object_members fuel s1); try discriminate.
      exfalso. apply IHm; [lia|reflexivity]. }
    destruct (c =? ord "[").
    { pose proof (skip_ws_length s') as Hw.
      destruct (skip_ws s') as [|c1 s1] eqn:Ew; [discriminate|].
      destruct (c1 =? ord "]"); [discriminate|].
      specialize (IHa (c1 :: s1)).
      destruct (array_items fuel (c1 :: s1)); try discriminate.
      exfalso. apply IHa; [cbn [length] in *; lia|reflexivity]. }
    repeat apply literal_or_fuel.
    destruct (scan_number (c :: s')) as [[? ?]|]; [discriminate|].
    repeat apply literal_or_fuel. discriminate.
  - intros s Hf. cbn [array_items].
    specialize (IHo s). destruct (scan_once fuel s) as [v r0| |] eqn:Eo;
      [|discriminate|exfalso; apply IHo; [lia|reflexivity]].
    apply Po in Eo.
    destruct (skip_ws r0) as [|c r1] eqn:Ew; [discriminate|].
    apply skip_ws_cons_length in Ew.
    destruct (c =? ord "]"); [discriminate|].
    destruct (c =? ord ","); [|discriminate].
    pose proof (skip_ws_length r1).
    specialize (IHa (skip_ws r1)).
    destruct (array_items fuel (skip_ws r1)); try discriminate.
    exfalso. apply IHa; [lia|reflexivity].
  - intros s Hf. cbn [object_members].
    destruct (scanstring s) as [[key r0]|] eqn:Es; [|discriminate].
    apply scanstring_progress in Es.
    destruct (skip_ws r0) as [|c r1] eqn:Ew; [discriminate|].
    apply skip_ws_cons_length in Ew.
    destruct (c =? ord ":"); [|discriminate].
    pose proof (skip_ws_length r1).
    specialize (IHo (skip_ws r1)).
    destruct (scan_once fuel (skip_ws r1)) as [v r2| |] eqn:Eo;
      [|discriminate|exfalso; apply IHo; [lia|reflexivity]].
    apply Po in Eo.
    destruct (skip_ws r2) as [|c2 r3] eqn:Ew2; [discriminate|].
    apply skip_ws_cons_length in Ew2.
    destruct (c2 =? ord "}"); [discriminate|].
    destruct (c2 =? ord ","); [|discriminate].
    destruct (skip_ws r3) as [|c3 r4] eqn:Ew3; [discriminate|].
    apply skip_ws_cons_length in Ew3.
    destruct (c3 =? 34); [|discriminate].
    specialize (IHm r4).
    destruct (object_members fuel r4); try discriminate.
    exfalso. apply IHm; [lia|reflexivity].
Qed.

(** So [loads] fails on a text only when the text is not a JSON document:
    the run of [scan_once] it makes ends in a value or in a decoding
    error, never for lack of budget. *)
Lemma loads_within_budget (s : text) :
  scan_once (budget s) (skip_ws s) <> OutOfFuel.
Proof.
  apply scan_fuel. unfold budget. pose proof (skip_ws_length s). lia.
Qed.

(* ================================================================== *)
(** * Saving, then loading *)

Lemma Forall2_In_left {A B} (R : A -> B -> Prop) (l1 : list A) (l2 : list B) (x : A) :
  Forall2 R l1 l2 -> In x l1 -> exists y, In y l2 /\ R x y.
Proof.
  induction 1 as [|a b l1 l2 Hab _ IH]; intros Hin; [contradiction|].
  destruct Hin as [->|Hin].
  - exists b. split; [now left|exact Hab].
  - destruct (IH Hin) as (y & Hy & Hr). exists y. split; [now right|exact Hr].
Qed.

Lemma save_then_load_unfold (now : datetime) (h : session) (w : world) :
  (save_chat_history now h ;; load_chat_histories) w
  = load_chat_histories (world_of (save_chat_history now h w)).
Proof.
  unfold bind at 1. rewrite save_chat_history_unfold. reflexivity.
Qed.

(** C1, as amended. When the texts of the session are well formed and
    every other file of [chat_histories] whose name ends in [.json] holds a
    JSON document, [save_chat_history] followed by [load_chat_histories]
    returns a list with an entry for the file just written whose data is
    the session: the same messages, in the same order. *)
Theorem save_then_load (now : datetime) (h : session) (w : world) :
  well_formed_session h ->
  (forall name, In name (listdir (chat_histories w)) ->
                endswith name (str ".json") = true ->
                name <> str "chat_" ++ strftime_Ymd_HMS now ++ str ".json" ->
                parses (chat_histories w) name) ->
  exists l e,
    value_of ((save_chat_history now h ;; load_chat_histories) w) = Ok l
    /\ In e l
    /\ filename e = str "chat_" ++ strftime_Ymd_HMS now ++ str ".json"
    /\ data e = json_of_session h.
Proof.
  intros Hwf Hothers. fold (transcript_name now) in *.
  rewrite save_then_load_unfold, save_chat_history_unfold. unfold world_of. cbn [snd].
  set (d1 := write_file (chat_histories w) (transcript_name now) (dumps (json_of_session h))).
  set (w1 := set_chat_histories d1 _).
  assert (Hd : chat_histories w1 = d1) by reflexivity.
  destruct (load_chat_histories_ok w1) as (l & entries & Hv & _ & Hperm & Hall).
  - rewrite Hd. intros n Hn Hj.
    destruct (list_eq_dec N.eq_dec n (transcript_name now)) as [->|Hne].
    + split; [apply transcript_name_no_slash|].
      exists (dumps (json_of_session h)), (json_of_session h).
      split; [apply read_write_same|now apply loads_dumps_session].
    + apply In_listdir_write in Hn as [Hn|Hn]; [|contradiction].
      destruct (Hothers n Hn Hj Hne) as (Hs & c & v & Hr & Hl).
      split; [exact Hs|]. exists c, v. split; [|exact Hl].
      unfold d1. now rewrite read_write_other.
  - rewrite Hd in Hall.
    destruct (Forall2_In_left _ _ _ (transcript_name now) Hall)
      as (e & He & Hname & c & Hr & Hl).
    { apply filter_In. split; [|apply transcript_name_is_json].
      apply In_listdir_write. now right. }
    exists l, e. split; [exact Hv|]. split; [|split; [exact Hname|]].
    + eapply Permutation_in; eassumption.
    + unfold d1 in Hr. rewrite read_write_same in Hr. injection Hr as <-.
      rewrite loads_dumps_session in Hl by exact Hwf. now injection Hl as <-.
Qed.

(* ================================================================== *)
(** * The context of a turn *)

(** C5, as amended. In a turn, the context passed to the chain is the
    lines of all the messages of the session in order, the newest user
    message included as the last line, joined by line breaks; a user
    message gives the line "User: ..." and any other "AI: ..."; the
    question is the content of the newest user message. *)
Theorem main_context
  (llm : list text -> text -> outcome) (page : ui) (w : world) (p : text) :
  previous_chats page = false ->
  chat_input page = Some p ->
  p <> [] ->
  let prior := session_of w in
  exists call,
    chain_calls (world_of (main llm page w)) = chain_calls w ++ [call]
    /\ inv_question call = p
    /\ inv_context call
       = join [10] (map context_line prior ++ [str "User: " ++ p])
    /\ (forall m,
          context_line m
          = if text_eqb (role m) (str "user")
            then str "User: " ++ content m else str "AI: " ++ content m).
Proof.
  intros Hview Hin Hp. cbv zeta. unfold main. rewrite Hview.
  destruct (current_chat_step llm page w p Hin Hp) as (reply & _ & Hc).
  eexists. split; [exact Hc|]. cbn [inv_question inv_context].
  split; [reflexivity|]. split; [|reflexivity].
  unfold build_context. now rewrite map_app.
Qed.

(** C5 as it was stated fails: the greeting exchanged, the question
    "how are you?" is passed along with a context of three lines, not with
    the two lines of the messages that came before it. *)
Lemma main_context_counterexample :
  ~ (exists call,
       chain_calls (world_of (main Sample.llm_hello Sample.asking Sample.under_way)) = [call]
       /\ inv_question call = Sample.question
       /\ inv_context call = build_context (session_of Sample.under_way)).
Proof.
  intros (call & Hcalls & _ & Hctx).
  vm_compute in Hcalls. injection Hcalls as <-.
  vm_compute in Hctx. discriminate Hctx.
Qed.

(** C1 as it was stated fails: with a file cut short in the directory,
    loading right after saving raises, and returns no transcript. *)
Lemma save_then_load_counterexample :
  ~ (exists l e,
       value_of ((save_chat_history Sample.clock_a Sample.greeting ;; load_chat_histories)
                   (fresh Sample.broken)) = Ok l
       /\ In e l
       /\ data e = json_of_session Sample.greeting).
Proof.
  intros (l & e & Hv & _). vm_compute in Hv. discriminate Hv.
Qed.

(* ================================================================== *)
(** * The statements at sample data *)

Lemma save_then_load_witness :
  exists l e,
    value_of ((save_chat_history Sample.clock_a Sample.greeting ;; load_chat_histories)
                (fresh Sample.tidy)) = Ok l
    /\ In e l
    /\ filename e = str "chat_20240309_070559.json"
    /\ data e = json_of_session Sample.greeting.
Proof.
  apply (save_then_load Sample.clock_a Sample.greeting (fresh Sample.tidy)).
  - repeat constructor; unfold scalar; cbn; lia.
  - intros name Hin Hj _. cbn in Hin.
    destruct Hin as [<-|[<-|[<-|[]]]].
    + split; [reflexivity|].
      exists (dumps (json_of_session Sample.greeting)), (json_of_session Sample.greeting).
      split; [reflexivity|vm_compute; reflexivity].
    + vm_compute in Hj. discriminate Hj.
    + split; [reflexivity|].
      exists (dumps (json_of_session Sample.farewell)), (json_of_session Sample.farewell).
      split; [reflexivity|vm_compute; reflexivity].
Defined.

Lemma chat_loop_session_witness :
  length (session_of (world_of
            (chat_loop Sample.llm_hello Sample.clock_a [str "hi"; str "bye"] (fresh []))))
  = 4%nat.
Proof.
  apply (chat_loop_session Sample.llm_hello Sample.clock_a [str "hi"; str "bye"] (fresh [])).
  reflexivity.
Defined.

Lemma generate_response_fallback_witness :
  value_of (generate_response Sample.llm_down Sample.greeting_context Sample.question
              (fresh []))
  = Ok (str "I'm sorry, but I encountered an error while processing your request.")
  /\ value_of (generate_response Sample.llm_hello Sample.greeting_context Sample.question
                 (fresh []))
     = Ok (str "hello").
Proof.
  split.
  - apply (proj1 (generate_response_fallback Sample.llm_down Sample.greeting_context
                    Sample.question (fresh [])) (str "connection refused")).
    reflexivity.
  - apply (proj1 (proj2 (generate_response_fallback Sample.llm_hello
                           Sample.greeting_context Sample.question (fresh [])))
             (str "hello")).
    reflexivity.
Defined.

Lemma generate_response_prompt_witness :
  value_of (generate_response Sample.llm_hello Sample.greeting_context Sample.question
              (fresh []))
  = Ok (str "hello").
Proof.
  destruct (generate_response_prompt Sample.llm_hello Sample.greeting_context
              Sample.question (fresh [])) as (call & _ & _ & _ & _ & Hret).
  apply Hret. reflexivity.
Defined.

Lemma main_context_witness :
  exists call,
    chain_calls (world_of (main Sample.llm_hello Sample.asking Sample.under_way)) = [call]
    /\ inv_question call = Sample.question
    /\ inv_context call
       = str "User: hi" ++ [10] ++ str "AI: hello" ++ [10] ++ str "User: how are you?".
Proof.
  destruct (main_context Sample.llm_hello Sample.asking Sample.under_way Sample.question)
    as (call & Hc & Hq & Hctx & _).
  - reflexivity.
  - reflexivity.
  - discriminate.
  - exists call. split; [exact Hc|]. split; [exact Hq|]. rewrite Hctx. reflexivity.
Defined.

Lemma save_chat_history_same_second_witness :
  value_of (save_chat_history Sample.clock_b Sample.farewell
              (world_of (save_chat_history Sample.clock_a Sample.greeting (fresh []))))
  = Ok (str "chat_histories/chat_20240309_070559.json")
  /\ chat_histories
       (world_of (save_chat_history Sample.clock_b Sample.farewell
          (world_of (save_chat_history Sample.clock_a Sample.greeting (fresh [])))))
     = [(str "chat_20240309_070559.json", dumps (json_of_session Sample.farewell))]
  /\ (exists date time,
        str "20240309_070559" = date ++ str "_" ++ time
        /\ number_of date = Some 20240309 /\ number_of time = Some 70559
        /\ length time = 6%nat /\ length date = 8%nat)
  /\ read_file
       (chat_histories
          (world_of (save_chat_history Cases.clock_c Sample.farewell
             (world_of (save_chat_history Sample.clock_a Sample.greeting (fresh []))))))
       (str "chat_20240309_070559.json")
     = Some (dumps (json_of_session Sample.greeting)).
Proof.
  destruct (save_chat_history_same_second Sample.clock_a Sample.clock_b
              Sample.greeting Sample.farewell (fresh []))
    as (_ & H2 & _ & _ & H5 & H6 & H7).
  - repeat split.
  - split; [exact H2|]. split; [rewrite H5; reflexivity|]. split.
    + destruct H6 as (date & time & E & Hd & Ht & Hl & Hl8);
        [unfold in_range; cbn; lia|].
      exists date, time. repeat split; try assumption.
      apply Hl8. cbn. lia.
    + apply (H7 Cases.clock_c Sample.farewell).
      * unfold in_range. cbn. lia.
      * unfold in_range. cbn. lia.
      * intros (_ & _ & _ & _ & H & _). discriminate H.
Defined.

Lemma load_chat_histories_sorted_witness :
  exists l,
    value_of (load_chat_histories (fresh Sample.tidy)) = Ok l
    /\ map filename l
       = [str "chat_20240102_080000.json"; str "chat_20240101_120000.json"].
Proof.
  destruct (load_chat_histories_sorted (fresh Sample.tidy)) as (l & es & Hv & _).
  - intros name Hin Hj. cbn in Hin.
    destruct Hin as [<-|[<-|[<-|[]]]].
    + split; [reflexivity|].
      exists (dumps (json_of_session Sample.greeting)), (json_of_session Sample.greeting).
      split; [reflexivity|vm_compute; reflexivity].
    + vm_compute in Hj. discriminate Hj.
    + split; [reflexivity|].
      exists (dumps (json_of_session Sample.farewell)), (json_of_session Sample.farewell).
      split; [reflexivity|vm_compute; reflexivity].
  - exists l. split; [exact Hv|].
    vm_compute in Hv. injection Hv as <-. reflexivity.
Defined.

Lemma load_chat_histories_malformed_witness :
  exists e, value_of (load_chat_histories (fresh Sample.broken)) = Raise e.
Proof.
  apply (load_chat_histories_malformed (fresh Sample.broken)
           (str "chat_20240102_080000.json") (str "[{")); reflexivity.
Defined.

Lemma load_chat_histories_empty_witness :
  load_chat_histories (fresh []) = (Ok [], fresh []).
Proof. apply load_chat_histories_empty. reflexivity. Defined.

(* ================================================================== *)
(** * What the load returns, exactly *)

Lemma chat_histories_log_opened (l : list text) (w : world) :
  chat_histories (log_opened l w) = chat_histories w.
Proof. reflexivity. Qed.

Lemma filename_entry_of (d : directory) (name : text) :
  filename (entry_of d name) = name.
Proof.
  unfold entry_of. destruct (parse_file d name) as [e|] eqn:E; [|reflexivity].
  now apply parse_file_Some in E as [-> _].
Qed.

Lemma map_filename_entry_of (d : directory) (names : list text) :
  map filename (map (entry_of d) names) = names.
Proof.
  induction names as [|n names IH]; [reflexivity|].
  cbn [map]. now rewrite filename_entry_of, IH.
Qed.

Lemma load_loop_Ok_intro (names : list text) (acc : list history_entry) (w : world) :
  (forall n, In n names -> is_json n = true ->
             exists e, parse_file (chat_histories w) n = Some e) ->
  value_of (load_loop names acc w)
  = Ok (acc ++ map (entry_of (chat_histories w)) (filter is_json names)).
Proof.
  revert acc w. induction names as [|n rest IH]; intros acc w H.
  - simpl. now rewrite app_nil_r.
  - rewrite load_loop_cons. cbn [filter].
    destruct (is_json n) eqn:Ej.
    + destruct (H n (or_introl eq_refl) Ej) as (e & He). rewrite He.
      rewrite IH by (intros m Hm; apply H; now right).
      rewrite chat_histories_log_opened. cbn [map]. unfold entry_of at 2.
      rewrite He, <- app_assoc. reflexivity.
    + apply IH. intros m Hm. apply H. now right.
Qed.

Lemma load_loop_Ok_inv (names : list text) (acc l : list history_entry) (w : world) :
  value_of (load_loop names acc w) = Ok l ->
  (forall n, In n names -> is_json n = true ->
             exists e, parse_file (chat_histories w) n = Some e)
  /\ l = acc ++ map (entry_of (chat_histories w)) (filter is_json names).
Proof.
  intros Hv.
  assert (Hall : forall n, In n names -> is_json n = true ->
                   exists e, parse_file (chat_histories w) n = Some e).
  { intros n Hn Hj. destruct (parse_file (chat_histories w) n) as [e|] eqn:E; [eauto|].
    destruct (load_loop_raise names acc w n Hn Hj E) as (x & Hx). congruence. }
  split; [exact Hall|].
  rewrite (load_loop_Ok_intro names acc w Hall) in Hv. now injection Hv.
Qed.

Lemma load_Ok_intro (w : world) :
  (forall n, In n (listdir (chat_histories w)) -> is_json n = true ->
             exists e, parse_file (chat_histories w) n = Some e) ->
  value_of (load_chat_histories w)
  = Ok (sorted_by_filename_desc
          (map (entry_of (chat_histories w)) (filter is_json (listdir (chat_histories w))))).
Proof.
  intros H. rewrite load_chat_histories_unfold.
  pose proof (load_loop_Ok_intro _ [] w H) as Hl.
  destruct (load_loop _ _ _) as [[l|e] w']; simpl in Hl; [|discriminate].
  injection Hl as ->. reflexivity.
Qed.

Lemma load_Ok_inv (w : world) (l : list history_entry) :
  value_of (load_chat_histories w) = Ok l ->
  (forall n, In n (listdir (chat_histories w)) -> is_json n = true ->
             exists e, parse_file (chat_histories w) n = Some e)
  /\ l = sorted_by_filename_desc
           (map (entry_of (chat_histories w)) (filter is_json (listdir (chat_histories w)))).
Proof.
  rewrite load_chat_histories_unfold. intros Hv.
  destruct (load_loop _ _ _) as [[l0|e] w'] eqn:El; simpl in Hv; [|discriminate].
  injection Hv as <-.
  destruct (load_loop_Ok_inv (listdir (chat_histories w)) [] l0 w) as [Hall ->];
    [now rewrite El|].
  split; [exact Hall|reflexivity].
Qed.

Lemma In_load (w : world) (l : list history_entry) (e : history_entry) :
  value_of (load_chat_histories w) = Ok l ->
  In e l <->
  exists n, In n (listdir (chat_histories w)) /\ is_json n = true
            /\ e = entry_of (chat_histories w) n.
Proof.
  intros Hv. apply load_Ok_inv in Hv as [_ ->].
  split.
  - intros He. apply (Permutation_in _ (sorted_perm _)) in He.
    apply in_map_iff in He as (n & <- & Hn). apply filter_In in Hn as [Hn Hj]. eauto.
  - intros (n & Hn & Hj & ->).
    apply (Permutation_in _ (Permutation_sym (sorted_perm _))).
    apply in_map. apply filter_In. auto.
Qed.

Lemma load_loop_opened (names : list text) (acc : list history_entry) (w : world) :
  exists read rest,
    world_of (load_loop names acc w)
      = log_opened (map (path_join CHAT_HISTORY_DIR) read) w
    /\ filter is_json names = read ++ rest
    /\ (forall l, value_of (load_loop names acc w) = Ok l -> rest = []).
Proof.
  revert acc w. induction names as [|n names IH]; intros acc w.
  - exists [], []. simpl. rewrite log_opened_nil. auto.
  - rewrite load_loop_cons. cbn [filter]. destruct (is_json n) eqn:Ej.
    + destruct (parse_file _ n) as [e|].
      * destruct (IH (acc ++ [e]) (log_opened [path_join CHAT_HISTORY_DIR n] w))
          as (read & rest & Ho & Hf & Hr).
        exists (n :: read), rest. split; [rewrite Ho; now rewrite log_opened_app|].
        split; [cbn [app]; now rewrite Hf|exact Hr].
      * exists [n], (filter is_json names). split; [reflexivity|].
        split; [reflexivity|]. discriminate.
    + apply IH.
Qed.

Lemma load_chat_histories_opened (w : world) :
  exists read rest,
    world_of (load_chat_histories w)
      = log_opened (map (path_join CHAT_HISTORY_DIR) read) w
    /\ filter is_json (listdir (chat_histories w)) = read ++ rest
    /\ (forall l, value_of (load_chat_histories w) = Ok l -> rest = []).
Proof.
  rewrite load_chat_histories_unfold.
  destruct (load_loop_opened (listdir (chat_histories w)) [] w)
    as (read & rest & Ho & Hf & Hr).
  exists read, rest.
  destruct (load_loop _ _ _) as [[l|e] w']; simpl in *.
  - split; [exact Ho|]. split; [exact Hf|]. intros _ _. now apply (Hr l).
  - split; [exact Ho|]. split; [exact Hf|]. discriminate.
Qed.

(** C10. [load_chat_histories] deals with exactly the files whose names
    end in [.json]. The paths it opens are those of such files, in the
    order of the listing, up to the first one that fails and all of them
    when it returns. The names of the entries it returns are the names of
    the listing that end in [.json], each once, and no other. It returns
    whenever these files parse, whatever the other files are: its result
    is the one it would give were the other files not there, and creating
    or rewriting a file whose name does not end in [.json] changes nothing
    to what it returns. *)
Theorem load_chat_histories_only_json (w : world) :
  let d := chat_histories w in
  let r := load_chat_histories w in
  let json_names := filter (fun n => endswith n (str ".json")) (listdir d) in
  (exists read,
     opened (world_of r) = opened w ++ map (path_join CHAT_HISTORY_DIR) read
     /\ Forall (fun n => endswith n (str ".json") = true /\ In n (listdir d)) read
     /\ (exists rest, json_names = read ++ rest)
     /\ (forall l, value_of r = Ok l -> read = json_names))
  /\ (forall l, value_of r = Ok l ->
        Forall (fun e => endswith (filename e) (str ".json") = true) l
        /\ Permutation (map filename l) json_names)
  /\ ((forall n, In n json_names -> parses d n) -> exists l, value_of r = Ok l)
  /\ value_of r
     = value_of (load_chat_histories
                   (set_chat_histories
                      (filter (fun e => endswith (fst e) (str ".json")) d) w))
  /\ (forall name c,
        endswith name (str ".json") = false ->
        value_of (load_chat_histories (set_chat_histories (write_file d name c) w))
        = value_of r).
Proof.
  cbv zeta. change (fun n : text => endswith n (str ".json")) with is_json.
  split; [|split; [|split; [|split]]].
  - destruct (load_chat_histories_opened w) as (read & rest & Ho & Hf & Hr).
    exists read. split; [now rewrite Ho|]. split; [|split].
    + rewrite Forall_forall. intros n Hn.
      assert (Hin : In n (filter is_json (listdir (chat_histories w))))
        by (rewrite Hf; apply in_or_app; now left).
      apply filter_In in Hin as [H1 H2]. split; assumption.
    + exists rest. exact Hf.
    + intros l Hl. rewrite Hf, (Hr l Hl). now rewrite app_nil_r.
  - intros l Hl.
    assert (Hp : Permutation (map filename l)
                   (filter is_json (listdir (chat_histories w)))).
    { apply load_Ok_inv in Hl as [_ ->].
      eapply Permutation_trans; [apply Permutation_map, sorted_perm|].
      now rewrite map_filename_entry_of. }
    split; [|exact Hp].
    rewrite Forall_forall. intros e He. apply (in_map filename) in He.
    apply (Permutation_in _ Hp) in He. now apply filter_In in He as [_ He].
  - intros H. eexists. apply load_Ok_intro. intros n Hn Hj.
    apply parse_file_parses, H. apply filter_In. split; assumption.
  - apply load_chat_histories_ext; [|reflexivity].
    world_simpl. symmetry. apply filter_idem.
  - intros name c Hj. apply load_chat_histories_ext; [|reflexivity].
    world_simpl. now apply filter_write_other.
Qed.

Lemma parse_file_written (d : directory) (name c : text) (v : json) :
  existsb (N.eqb 47) name = false -> read_file d name = Some c -> loads c = Some v ->
  parse_file d name = Some {| filename := name; data := v |}.
Proof.
  intros Hs Hr Hl. unfold parse_file. now rewrite (entry_of_join _ Hs), Hr, Hl.
Qed.

Lemma load_value_of_directory (w1 w2 : world) :
  chat_histories w1 = chat_histories w2 ->
  value_of (load_chat_histories w1) = value_of (load_chat_histories w2).
Proof.
  intros Hd. rewrite !load_chat_histories_unfold, <- Hd.
  assert (H : forall names acc u1 u2,
             chat_histories u1 = chat_histories u2 ->
             value_of (load_loop names acc u1) = value_of (load_loop names acc u2)).
  { induction names as [|n rest IH]; intros acc u1 u2 Hu; [reflexivity|].
    rewrite !load_loop_cons, Hu.
    destruct (is_json n); [|now apply IH].
    destruct (parse_file (chat_histories u2) n); [|reflexivity].
    apply IH. now rewrite !chat_histories_log_opened. }
  specialize (H (listdir (chat_histories w1)) [] w1 w2 Hd).
  destruct (load_loop _ _ w1) as [[l1|e1] u1], (load_loop _ _ w2) as [[l2|e2] u2];
    simpl in *; congruence.
Qed.

(** X3. [load_chat_histories] only reads. Whether it returns or raises,
    the directory, the session state, the record of the model's calls and
    the reported errors are as before, and loading once more gives the
    same list or the same exception. *)
Theorem load_chat_histories_read_only (w : world) :
  let w' := world_of (load_chat_histories w) in
  chat_histories w' = chat_histories w
  /\ messages w' = messages w
  /\ chain_calls w' = chain_calls w
  /\ st_errors w' = st_errors w
  /\ value_of (load_chat_histories w') = value_of (load_chat_histories w).
Proof.
  cbv zeta. destruct (load_chat_histories_world w) as (read & -> & _).
  repeat split. now apply load_value_of_directory.
Qed.

(* ================================================================== *)
(** * Saving among other transcripts *)

Lemma text_leb_antisym (a b : text) :
  text_leb a b = true -> text_leb b a = true -> a = b.
Proof.
  revert b; induction a as [|x a IH]; intros [|y b] Hab Hba; simpl in *;
    try discriminate; [reflexivity|].
  destruct (N.ltb_spec x y), (N.ltb_spec y x); try discriminate; try lia.
  assert (x = y) by lia. subst. f_equal. auto.
Qed.

Lemma parse_file_saved (d : directory) (now : datetime) (h : session) :
  well_formed_session h ->
  read_file d (transcript_name now) = Some (dumps (json_of_session h)) ->
  parse_file d (transcript_name now)
  = Some {| filename := transcript_name now; data := json_of_session h |}.
Proof.
  intros Hwf Hr. apply (parse_file_written _ _ _ _ (transcript_name_no_slash now) Hr).
  now apply loads_dumps_session.
Qed.

Lemma parse_file_other (d : directory) (name c other : text) :
  other <> name ->
  parse_file (write_file d name c) other = parse_file d other.
Proof.
  intros Hne. apply parse_file_ext. now apply read_write_other.
Qed.

Lemma entry_of_other (d : directory) (name c other : text) :
  other <> name ->
  entry_of (write_file d name c) other = entry_of d other.
Proof. intros Hne. unfold entry_of. now rewrite parse_file_other. Qed.

Lemma NoDup_app_iff_local {A} (l : list A) (x : A) :
  NoDup l -> ~ In x l -> NoDup (l ++ [x]).
Proof.
  induction 1 as [|a l Ha Hl IH]; intros Hx; simpl.
  - constructor; [intros []|constructor].
  - constructor.
    + rewrite in_app_iff. simpl. intros [H|[H|[]]]; [contradiction|].
      apply Hx. now left.
    + apply IH. intros H. apply Hx. now right.
Qed.

(** X2. [save_chat_history] touches one file only. Every other file reads
    as before; the directory lists the names it listed before and the
    transcript's name; a listing without a repeated name stays so; the one
    path opened is chat_histories/chat_<stamp>.json; the session state, the
    record of the model's calls and the reported errors are as before. *)
Theorem save_chat_history_writes_one_file (now : datetime) (h : session) (w : world) :
  let name := str "chat_" ++ strftime_Ymd_HMS now ++ str ".json" in
  let w' := world_of (save_chat_history now h w) in
  (forall other, other <> name ->
     read_file (chat_histories w') other = read_file (chat_histories w) other)
  /\ (forall other, In other (listdir (chat_histories w')) <->
                    In other (listdir (chat_histories w)) \/ other = name)
  /\ (NoDup (listdir (chat_histories w)) -> NoDup (listdir (chat_histories w')))
  /\ opened w' = opened w ++ [str "chat_histories/" ++ name]
  /\ messages w' = messages w
  /\ chain_calls w' = chain_calls w
  /\ st_errors w' = st_errors w.
Proof.
  cbv zeta. fold (transcript_name now). rewrite save_chat_history_unfold. world_simpl.
  split; [|split; [|split; [|repeat split]]].
  - intros other Hne. now apply read_write_other.
  - intros other. apply In_listdir_write.
  - intros Hnd. rewrite listdir_write.
    destruct (existsb _ _) eqn:E; [exact Hnd|].
    apply NoDup_app_iff_local; [exact Hnd|].
    intros Hin. assert (existsb (fun n => text_eqb n (transcript_name now))
                          (listdir (chat_histories w)) = true); [|congruence].
    apply existsb_exists. exists (transcript_name now).
    split; [exact Hin|apply text_eqb_refl].
Qed.

(** X1. Two saves at instants that differ somewhere down to the second
    write two different files, and loading afterwards returns both
    sessions, each under its own file name. The sessions' texts are made
    of Unicode scalar values, the years are below 10000, and the .json files
    already in the directory parse. *)
Theorem saves_in_distinct_seconds
  (now1 now2 : datetime) (h1 h2 : session) (w : world) :
  in_range now1 -> in_range now2 ->
  calendar_key now1 <> calendar_key now2 ->
  well_formed_session h1 -> well_formed_session h2 ->
  (forall name, In name (listdir (chat_histories w)) ->
                endswith name (str ".json") = true ->
                parses (chat_histories w) name) ->
  let name1 := str "chat_" ++ strftime_Ymd_HMS now1 ++ str ".json" in
  let name2 := str "chat_" ++ strftime_Ymd_HMS now2 ++ str ".json" in
  let w2 := world_of (save_chat_history now2 h2 (world_of (save_chat_history now1 h1 w))) in
  name1 <> name2
  /\ exists l e1 e2,
       value_of (load_chat_histories w2) = Ok l
       /\ In e1 l /\ filename e1 = name1 /\ data e1 = json_of_session h1
       /\ In e2 l /\ filename e2 = name2 /\ data e2 = json_of_session h2.
Proof.
  intros R1 R2 Hkey Hw1 Hw2 Hparse. cbv zeta.
  fold (transcript_name now1) (transcript_name now2).
  assert (Hne : transcript_name now1 <> transcript_name now2).
  { intros E. apply Hkey. now apply transcript_name_inj. }
  split; [exact Hne|].
  rewrite !save_chat_history_unfold. world_simpl.
  set (d := chat_histories w) in *.
  set (d1 := write_file d (transcript_name now1) (dumps (json_of_session h1))).
  set (d2 := write_file d1 (transcript_name now2) (dumps (json_of_session h2))).
  set (w2 := set_chat_histories d2 _).
  assert (Hr2 : read_file d2 (transcript_name now2) = Some (dumps (json_of_session h2)))
    by apply read_write_same.
  assert (Hr1 : read_file d2 (transcript_name now1) = Some (dumps (json_of_session h1))).
  { unfold d2. rewrite read_write_other by exact Hne. apply read_write_same. }
  assert (Hall : forall n, In n (listdir (chat_histories w2)) -> is_json n = true ->
                   exists e, parse_file (chat_histories w2) n = Some e).
  { change (chat_histories w2) with d2. intros n Hn Hj.
    destruct (list_eq_dec N.eq_dec n (transcript_name now2)) as [->|N2];
      [rewrite (parse_file_saved _ _ _ Hw2 Hr2); eauto|].
    destruct (list_eq_dec N.eq_dec n (transcript_name now1)) as [->|N1];
      [rewrite (parse_file_saved _ _ _ Hw1 Hr1); eauto|].
    unfold d2, d1. rewrite !parse_file_other by assumption.
    apply parse_file_parses. apply Hparse; [|exact Hj].
    apply In_listdir_write in Hn as [Hn|Hn]; [|contradiction].
    apply In_listdir_write in Hn as [Hn|Hn]; [exact Hn|contradiction]. }
  pose proof (load_Ok_intro w2 Hall) as Hv.
  eexists. exists (entry_of d2 (transcript_name now1)), (entry_of d2 (transcript_name now2)).
  split; [exact Hv|].
  assert (In1 : In (transcript_name now1) (listdir d2)).
  { apply In_listdir_write. left. apply In_listdir_write. now right. }
  assert (In2 : In (transcript_name now2) (listdir d2))
    by (apply In_listdir_write; now right).
  unfold entry_of.
  rewrite (parse_file_saved _ _ _ Hw1 Hr1), (parse_file_saved _ _ _ Hw2 Hr2).
  repeat split.
  - apply (In_load w2 _ _ Hv). exists (transcript_name now1).
    split; [exact In1|]. split; [apply transcript_name_is_json|].
    unfold entry_of. change (chat_histories w2) with d2.
    now rewrite (parse_file_saved _ _ _ Hw1 Hr1).
  - apply (In_load w2 _ _ Hv). exists (transcript_name now2).
    split; [exact In2|]. split; [apply transcript_name_is_json|].
    unfold entry_of. change (chat_histories w2) with d2.
    now rewrite (parse_file_saved _ _ _ Hw2 Hr2).
Qed.

(** X4. For a session whose texts are made of Unicode scalar values: if
    the histories load before the save of the session, they load after it;
    every entry loaded before under another name is still there, and every
    entry loaded afterwards is the saved session under the transcript's
    name or an entry that was loaded before. *)
Theorem save_keeps_earlier_transcripts
  (now : datetime) (h : session) (w : world) (l : list history_entry) :
  well_formed_session h ->
  value_of (load_chat_histories w) = Ok l ->
  let name := str "chat_" ++ strftime_Ymd_HMS now ++ str ".json" in
  exists l',
    value_of ((save_chat_history now h ;; load_chat_histories) w) = Ok l'
    /\ (forall e, In e l -> filename e <> name -> In e l')
    /\ (forall e, In e l' ->
          (filename e = name /\ data e = json_of_session h)
          \/ (filename e <> name /\ In e l)).
Proof.
  intros Hwf Hv. cbv zeta. fold (transcript_name now).
  rewrite save_then_load_unfold, save_chat_history_unfold. unfold world_of. cbn [snd].
  set (d := chat_histories w) in *.
  set (d1 := write_file d (transcript_name now) (dumps (json_of_session h))).
  set (w1 := set_chat_histories d1 _).
  destruct (load_Ok_inv w l Hv) as [Hall _]. fold d in Hall.
  assert (Hr : read_file d1 (transcript_name now) = Some (dumps (json_of_session h)))
    by apply read_write_same.
  assert (Hall1 : forall n, In n (listdir (chat_histories w1)) -> is_json n = true ->
                    exists e, parse_file (chat_histories w1) n = Some e).
  { change (chat_histories w1) with d1. intros n Hn Hj.
    destruct (list_eq_dec N.eq_dec n (transcript_name now)) as [->|Hne];
      [rewrite (parse_file_saved _ _ _ Hwf Hr); eauto|].
    unfold d1. rewrite parse_file_other by exact Hne.
    apply Hall; [|exact Hj].
    apply In_listdir_write in Hn as [Hn|Hn]; [exact Hn|contradiction]. }
  pose proof (load_Ok_intro w1 Hall1) as Hv1.
  eexists. split; [exact Hv1|]. split.
  - intros e He Hne. apply (In_load w _ _ Hv) in He as (n & Hn & Hj & ->).
    rewrite filename_entry_of in Hne.
    apply (In_load w1 _ _ Hv1). exists n.
    change (chat_histories w1) with d1. fold d.
    split; [apply In_listdir_write; now left|]. split; [exact Hj|].
    unfold d1. now rewrite entry_of_other.
  - intros e He. apply (In_load w1 _ _ Hv1) in He as (n & Hn & Hj & ->).
    change (chat_histories w1) with d1 in *.
    destruct (list_eq_dec N.eq_dec n (transcript_name now)) as [->|Hne].
    + left. unfold entry_of. rewrite (parse_file_saved _ _ _ Hwf Hr). auto.
    + right. rewrite filename_entry_of. split; [exact Hne|].
      unfold d1. rewrite entry_of_other by exact Hne.
      apply (In_load w _ _ Hv). exists n. fold d.
      apply In_listdir_write in Hn as [Hn|Hn]; [auto|contradiction].
Qed.

(* ================================================================== *)
(** * The order of the listing and the order of the result *)

Lemma read_file_perm (d1 d2 : directory) (name : text) :
  NoDup (listdir d1) -> Permutation d1 d2 -> read_file d1 name = read_file d2 name.
Proof.
  intros Hnd Hp. induction Hp as [|[n c] l l' Hp IH|[n1 c1] [n2 c2] l|l l' l'' H1 IH1 H2 IH2].
  - reflexivity.
  - simpl. inversion Hnd; subst. destruct (text_eqb n name); auto.
  - simpl. destruct (text_eqb n1 name) eqn:E1, (text_eqb n2 name) eqn:E2; try reflexivity.
    apply text_eqb_eq in E1, E2. subst.
    inversion Hnd as [|? ? Hin _]; subst. exfalso. apply Hin. now left.
  - rewrite IH1 by exact Hnd. apply IH2.
    unfold listdir. eapply Permutation_NoDup; [|exact Hnd].
    now apply Permutation_map.
Qed.

Lemma filter_perm {A} (f : A -> bool) (l l' : list A) :
  Permutation l l' -> Permutation (filter f l) (filter f l').
Proof.
  induction 1 as [|x l l' _ IH|x y l|l l' l'' _ IH1 _ IH2]; simpl.
  - constructor.
  - destruct (f x); [now constructor|exact IH].
  - destruct (f x), (f y); try reflexivity. apply perm_swap.
  - now transitivity (filter f l').
Qed.

Lemma NoDup_map_eq {A B} (f : A -> B) (l : list A) (x y : A) :
  NoDup (map f l) -> In x l -> In y l -> f x = f y -> x = y.
Proof.
  induction l as [|a l IH]; simpl; [contradiction|].
  intros Hnd Hx Hy E. inversion Hnd as [|? ? Hin Hnd']; subst.
  destruct Hx as [->|Hx], Hy as [->|Hy]; auto.
  - exfalso. apply Hin. rewrite E. now apply in_map.
  - exfalso. apply Hin. rewrite <- E. now apply in_map.
Qed.

(** A list in descending order of distinct names is determined by its
    elements. *)
Lemma descending_unique (l1 l2 : list history_entry) :
  descending l1 -> descending l2 -> Permutation l1 l2 ->
  NoDup (map filename l1) -> l1 = l2.
Proof.
  unfold descending. intros S1. revert l2.
  induction S1 as [|x l1 S1 IH Hx]; intros l2 S2 Hp Hnd.
  - apply Permutation_nil in Hp. now subst.
  - destruct S2 as [|y l2 S2 Hy];
      [apply Permutation_sym, Permutation_nil in Hp; discriminate|].
    assert (x = y) as <-.
    { assert (Hxin : In x (y :: l2)) by (eapply Permutation_in; [exact Hp|now left]).
      assert (Hyin : In y (x :: l1))
        by (eapply Permutation_in; [symmetry; exact Hp|now left]).
      destruct Hxin as [->|Hxin]; [reflexivity|].
      destruct Hyin as [->|Hyin]; [reflexivity|].
      rewrite Forall_forall in Hx, Hy.
      apply (NoDup_map_eq filename (x :: l1)); [exact Hnd|now left|now right|].
      apply text_leb_antisym; [apply Hy|apply Hx]; assumption. }
    f_equal. apply IH; [exact S2| |now inversion Hnd].
    eapply Permutation_cons_inv. exact Hp.
Qed.

(** X5. What [load_chat_histories] returns does not depend on the order
    in which os.listdir lists the directory: two listings of the same
    files, no name repeated, load to the same list. *)
Theorem load_does_not_depend_on_listing_order (w1 w2 : world) :
  NoDup (listdir (chat_histories w1)) ->
  Permutation (chat_histories w1) (chat_histories w2) ->
  forall l,
    value_of (load_chat_histories w1) = Ok l <-> value_of (load_chat_histories w2) = Ok l.
Proof.
  assert (H : forall u1 u2 l,
             NoDup (listdir (chat_histories u1)) ->
             Permutation (chat_histories u1) (chat_histories u2) ->
             value_of (load_chat_histories u1) = Ok l ->
             value_of (load_chat_histories u2) = Ok l).
  { intros u1 u2 l Hnd Hp Hv.
    set (d1 := chat_histories u1) in *. set (d2 := chat_histories u2) in *.
    assert (Hnames : Permutation (listdir d1) (listdir d2))
      by (unfold listdir; now apply Permutation_map).
    assert (Hpf : forall n, parse_file d1 n = parse_file d2 n)
      by (intros n; apply parse_file_ext; now apply read_file_perm).
    assert (Hent : forall n, entry_of d1 n = entry_of d2 n)
      by (intros n; unfold entry_of; now rewrite Hpf).
    destruct (load_Ok_inv u1 l Hv) as [Hall ->]. fold d1 in Hall |- *.
    rewrite load_Ok_intro.
    - fold d2. f_equal. symmetry. apply descending_unique.
      + apply sorted_descending.
      + apply sorted_descending.
      + rewrite !sorted_perm. rewrite (map_ext _ _ Hent).
        apply Permutation_map, filter_perm. exact Hnames.
      + eapply Permutation_NoDup; [apply Permutation_map; symmetry; apply sorted_perm|].
        rewrite map_filename_entry_of. now apply NoDup_filter.
    - fold d2. intros n Hn Hj. rewrite <- Hpf. apply Hall; [|exact Hj].
      eapply Permutation_in; [symmetry; exact Hnames|exact Hn]. }
  intros Hnd Hp l. split; [now apply H|].
  apply H; [|now symmetry].
  unfold listdir. eapply Permutation_NoDup; [|exact Hnd]. now apply Permutation_map.
Qed.

Lemma StronglySorted_app_r {A} (R : A -> A -> Prop) (l1 l2 : list A) :
  StronglySorted R (l1 ++ l2) -> StronglySorted R l2.
Proof.
  induction l1 as [|x l1 IH]; [auto|]. simpl. intros H.
  apply StronglySorted_inv in H as [H _]. auto.
Qed.

(** X6. In the list [load_chat_histories] returns, the transcript saved
    later comes first: of two entries named after the instants t1 and t2,
    both in the years 1000 to 9999, the one listed first has the later
    instant, or the same one. (Before year 1000 the year is written with
    fewer digits and this order is lost.) *)
Theorem load_lists_most_recent_first
  (w : world) (l before between after : list history_entry)
  (e1 e2 : history_entry) (t1 t2 : datetime) :
  value_of (load_chat_histories w) = Ok l ->
  l = before ++ e1 :: between ++ e2 :: after ->
  filename e1 = str "chat_" ++ strftime_Ymd_HMS t1 ++ str ".json" ->
  filename e2 = str "chat_" ++ strftime_Ymd_HMS t2 ++ str ".json" ->
  in_range t1 -> in_range t2 ->
  1000 <= year t1 -> 1000 <= year t2 ->
  calendar_key t2 <= calendar_key t1.
Proof.
  intros Hv -> H1 H2 R1 R2 K1 K2.
  apply load_Ok_inv in Hv as [_ Hl].
  pose proof (sorted_descending
                (map (entry_of (chat_histories w))
                     (filter is_json (listdir (chat_histories w))))) as Hs.
  rewrite <- Hl in Hs. unfold descending in Hs.
  apply StronglySorted_app_r, StronglySorted_inv in Hs as [_ Hall].
  rewrite Forall_forall in Hall.
  specialize (Hall e2 (in_elt e2 between after)). cbv beta in Hall.
  rewrite H1, H2 in Hall.
  now apply (transcript_name_chronological t2 t1 R2 R1 K2 K1).
Qed.

(* ================================================================== *)
(** * The turns of the chat, once more *)

Lemma main_directory_unchanged
  (llm : list text -> text -> outcome) (page : ui) (w : world) :
  previous_chats page = true \/ truthy (chat_input page) = false
  \/ save_button page = false ->
  chat_histories (world_of (main llm page w)) = chat_histories w.
Proof.
  intros H. unfold main.
  destruct (previous_chats page) eqn:Ev.
  - unfold previous_chats_view, bind.
    destruct (load_chat_histories_world w) as (read & Ho & _).
    destruct (load_chat_histories w) as [[l|e] w']; unfold world_of in *;
      cbn [snd] in *; subst w'; reflexivity.
  - destruct H as [H|[H|H]]; [discriminate| |].
    + unfold current_chat. rewrite H. unfold bind, ret, init_messages.
      destruct (messages w); reflexivity.
    + unfold current_chat. rewrite H.
      destruct (truthy (chat_input page));
        unfold bind, ret, init_messages, append_message, get_messages;
        destruct (messages w); try reflexivity;
        rewrite generate_response_unfold; cbv zeta;
        destruct (llm _ _); reflexivity.
Qed.

Section Turns.

Variable llm : list text -> text -> outcome.




End Turns.


(* ================================================================== *)
(** * The context keeps everything *)

Lemma occurs_in_app_l (needle a b : text) : occurs_in needle a -> occurs_in needle (a ++ b).
Proof.
  intros (x & y & ->). exists x, (y ++ b). now rewrite <- !app_assoc.
Qed.

Lemma occurs_in_app_r (needle a b : text) : occurs_in needle b -> occurs_in needle (a ++ b).
Proof.
  intros (x & y & ->). exists (a ++ x), y. now rewrite <- !app_assoc.
Qed.

Lemma join_cons (sep p : text) (rest : list text) :
  join sep (p :: rest)
  = p ++ match rest with [] => [] | _ :: _ => sep ++ join sep rest end.
Proof. destruct rest; simpl; [now rewrite app_nil_r|reflexivity]. Qed.

Lemma join_app_prefix (sep : text) (l more : list text) :
  exists rest, join sep (l ++ more) = join sep l ++ rest.
Proof.
  induction l as [|p l IH].
  - exists (join sep more). reflexivity.
  - cbn [app]. rewrite !join_cons. destruct IH as (rest & IH).
    destruct l as [|q l].
    + cbn [app]. eexists. rewrite <- app_assoc. cbn [app]. reflexivity.
    + cbn [app] in *. rewrite IH. exists rest. now rewrite <- !app_assoc.
Qed.

Lemma occurs_in_context_line (m : message) : occurs_in (content m) (context_line m).
Proof.
  unfold context_line. destruct (text_eqb _ _).
  - exists (str "User: "), []. now rewrite app_nil_r.
  - exists (str "AI: "), []. now rewrite app_nil_r.
Qed.

(** X8. The context built from a session contains the content of every
    message of the session; adding messages to the session only adds text
    at the end of the context; the context is at least as long as any
    message in it. *)
Theorem build_context_keeps_everything (msgs : session) (m : message) :
  In m msgs ->
  occurs_in (content m) (build_context msgs)
  /\ (forall more, exists rest,
        build_context (msgs ++ more) = build_context msgs ++ rest)
  /\ (length (content m) <= length (build_context msgs))%nat.
Proof.
  intros Hin.
  assert (Hocc : occurs_in (content m) (build_context msgs)).
  { unfold build_context. induction msgs as [|x l IH]; [contradiction|].
    cbn [map]. rewrite join_cons. destruct Hin as [->|Hin].
    - apply occurs_in_app_l, occurs_in_context_line.
    - apply occurs_in_app_r. destruct l as [|y l]; [contradiction|].
      cbn [map] in *. apply occurs_in_app_r. now apply IH. }
  split; [exact Hocc|]. split.
  - intros more. unfold build_context. rewrite map_app. apply join_app_prefix.
  - destruct Hocc as (a & b & ->). rewrite !length_app. lia.
Qed.

(* ================================================================== *)
(** * The button "Save Chat History" *)

Lemma current_chat_saving
  (llm : list text -> text -> outcome) (page : ui) (w : world) (p : text) :
  chat_input page = Some p -> p <> [] -> save_button page = true ->
  let w' := world_of (current_chat llm page w) in
  value_of (current_chat llm page w) = Ok tt
  /\ (exists reply,
        session_of w' = session_of w ++ [user_message p; assistant_message reply])
  /\ chat_histories w'
     = write_file (chat_histories w) (transcript_name (clock page))
         (dumps (json_of_session (session_of w'))).
Proof.
  intros Hin Hp Hb. cbv zeta.
  unfold current_chat. rewrite Hin, Hb.
  destruct p as [|c p]; [congruence|]. cbn [truthy].
  unfold bind, ret, init_messages, append_message, get_messages.
  destruct (messages w) as [msgs|] eqn:Em;
    rewrite generate_response_unfold; cbv zeta; world_simpl; rewrite ?Em;
    destruct (llm _ _) as [reply|e]; world_simpl;
    rewrite save_chat_history_unfold; world_simpl;
    unfold session_of; rewrite Em; rewrite <- ?app_assoc;
    (split; [reflexivity|split; [eexists; reflexivity|reflexivity]]).
Qed.

(** X9. A run of [main] on the current chat with a non-empty input and
    the button pressed returns normally, appends the input and a reply to
    the session, and writes the whole session, this last exchange
    included, to chat_<stamp>.json; every other file reads as before. *)
Theorem save_button_saves_the_whole_session
  (llm : list text -> text -> outcome) (page : ui) (w : world) (p : text) :
  previous_chats page = false ->
  chat_input page = Some p -> p <> [] ->
  save_button page = true ->
  let w' := world_of (main llm page w) in
  let name := str "chat_" ++ strftime_Ymd_HMS (clock page) ++ str ".json" in
  value_of (main llm page w) = Ok tt
  /\ (exists reply,
        session_of w' = session_of w ++ [user_message p; assistant_message reply])
  /\ read_file (chat_histories w') name = Some (dumps (json_of_session (session_of w')))
  /\ (forall other, other <> name ->
        read_file (chat_histories w') other = read_file (chat_histories w) other).
Proof.
  intros Hview Hin Hp Hb. cbv zeta. unfold main. rewrite Hview.
  fold (transcript_name (clock page)).
  destruct (current_chat_saving llm page w p Hin Hp Hb) as (Hv & Hs & Hd).
  split; [exact Hv|]. split; [exact Hs|]. rewrite Hd. split.
  - apply read_write_same.
  - intros other Hne. now apply read_write_other.
Qed.


(** X10. A run of [main] writes no file unless the current chat is shown,
    a non-empty input was submitted and the button is pressed in that same
    run: on the previous chats view, without such an input, or without the
    button, the directory is as before. *)
Theorem nothing_is_saved_without_input_and_button
  (llm : list text -> text -> outcome) (page : ui) (w : world) :
  previous_chats page = true \/ truthy (chat_input page) = false
  \/ save_button page = false ->
  chat_histories (world_of (main llm page w)) = chat_histories w.
Proof. apply main_directory_unchanged. Qed.

(** X16. A run of [main] on the previous chats view, or without a
    non-empty input, leaves the session as it is, does not call the model,
    reports no error and writes no file. *)
Theorem run_without_input_changes_nothing
  (llm : list text -> text -> outcome) (page : ui) (w : world) :
  previous_chats page = true \/ truthy (chat_input page) = false ->
  let w' := world_of (main llm page w) in
  session_of w' = session_of w
  /\ chain_calls w' = chain_calls w
  /\ st_errors w' = st_errors w
  /\ chat_histories w' = chat_histories w.
Proof.
  intros H. cbv zeta. unfold main.
  destruct (previous_chats page) eqn:Ev.
  - unfold previous_chats_view, bind.
    destruct (load_chat_histories_world w) as (read & Ho & _).
    destruct (load_chat_histories w) as [[l|e] w']; unfold world_of in *;
      cbn [snd] in *; subst w'; repeat split.
  - destruct H as [H|H]; [discriminate|].
    unfold current_chat. rewrite H. unfold bind, ret, init_messages, session_of.
    destruct (messages w) eqn:E; world_simpl; rewrite ?E; repeat split.
Qed.

(* ================================================================== *)
(** * The view of previous chats *)

Lemma draw_entries_message (m : message) (rest : list json) :
  draw_entries (json_of_message m :: rest)
  = (shown m ++ fst (draw_entries rest), snd (draw_entries rest)).
Proof.
  unfold json_of_message, shown. cbn [draw_entries].
  change (dict_get [(str "role", JString (role m)); (str "content", JString (content m))]
            (str "role")) with (Some (JString (role m))).
  change (dict_get [(str "role", JString (role m)); (str "content", JString (content m))]
            (str "content")) with (Some (JString (content m))).
  cbn [equals_str].
  destruct (text_eqb (role m) (str "user")).
  - destruct (draw_entries rest). reflexivity.
  - destruct (text_eqb (role m) (str "assistant")).
    + destruct (draw_entries rest). reflexivity.
    + destruct (draw_entries rest). reflexivity.
Qed.

Lemma draw_entries_session (h : session) (rest : list json) :
  draw_entries (map json_of_message h ++ rest)
  = (display h ++ fst (draw_entries rest), snd (draw_entries rest)).
Proof.
  induction h as [|m h IH]; cbn [map app display flat_map].
  - destruct (draw_entries rest). reflexivity.
  - rewrite draw_entries_message, IH. cbn [fst snd]. unfold display.
    now rewrite app_assoc.
Qed.

Lemma draw_history_session (h : session) :
  draw_history (json_of_session h) = (display h, None).
Proof.
  unfold draw_history, json_of_session. cbn [py_iter].
  rewrite <- (app_nil_r (map json_of_message h)), draw_entries_session.
  cbn [draw_entries fst snd]. now rewrite app_nil_r.
Qed.

Lemma draw_entries_never_propagates (entries : list json) (e : exn) :
  snd (draw_entries entries) <> Some (Propagated e).
Proof.
  induction entries as [|entry rest IH]; cbn [draw_entries]; [discriminate|].
  destruct entry; try discriminate.
  destruct (equals_str _ "user");
    [|destruct (equals_str _ "assistant")];
    try (destruct (dict_get _ (str "content")); [|discriminate]);
    destruct (draw_entries rest); exact IH.
Qed.

Lemma draw_history_never_propagates (v : json) (e : exn) :
  snd (draw_history v) <> Some (Propagated e).
Proof.
  unfold draw_history. destruct (py_iter v); [apply draw_entries_never_propagates|discriminate].
Qed.

(** The view with its drawing and the view as [main] runs it agree: the
    same world afterwards, and the first raises what [load_chat_histories]
    raised exactly when the second does. *)
Lemma previous_chats_page_view (selected : text) (w : world) :
  snd (previous_chats_page selected w) = world_of (previous_chats_view w)
  /\ forall e, value_of (previous_chats_view w) = Raise e
               <-> snd (fst (previous_chats_page selected w)) = Some (Propagated e).
Proof.
  unfold previous_chats_page, previous_chats_view, bind, ret, world_of, value_of.
  destruct (load_chat_histories w) as [[l|e0] w']; cbn [fst snd].
  - destruct l as [|h l']; [split; [reflexivity|split; discriminate]|].
    destruct (find _ (h :: l')) as [h0|].
    + pose proof (draw_history_never_propagates (data h0)) as Hn.
      destruct (draw_history (data h0)) as [lines x]. cbn [fst snd] in *.
      split; [reflexivity|]. intros e. split; [discriminate|].
      intros H. now apply Hn in H.
    + cbn [fst snd]. split; [reflexivity|]. intros e. split; discriminate.
  - split; [reflexivity|]. intros e. split; congruence.
Qed.

Lemma previous_chats_page_found
  (selected : text) (w : world) (l : list history_entry) (v : json) :
  value_of (load_chat_histories w) = Ok l ->
  In selected (listdir (chat_histories w)) -> is_json selected = true ->
  parse_file (chat_histories w) selected = Some {| filename := selected; data := v |} ->
  fst (previous_chats_page selected w)
  = (Text (str "### Chat: " ++ selected) :: fst (draw_history v), snd (draw_history v)).
Proof.
  intros Hv Hin Hj Hp. unfold previous_chats_page.
  pose proof (In_load w l) as Hl.
  destruct (load_chat_histories w) as [[l0|e] w'] eqn:E; simpl in Hv; [|discriminate].
  injection Hv as ->. specialize (fun e => Hl e eq_refl).
  assert (Hsel : In {| filename := selected; data := v |} l).
  { apply Hl. exists selected. unfold entry_of. rewrite Hp. auto. }
  destruct l as [|e0 l']; [contradiction|].
  destruct (find _ (e0 :: l')) as [h|] eqn:Ef.
  - apply find_some in Ef as [Hh Hname]. apply text_eqb_eq in Hname.
    apply Hl in Hh as (n & _ & _ & ->). rewrite filename_entry_of in Hname. subst n.
    unfold entry_of. rewrite Hp. cbn [data].
    destruct (draw_history v). reflexivity.
  - exfalso. apply (find_none _ _ Ef) in Hsel. cbn [filename] in Hsel.
    now rewrite text_eqb_refl in Hsel.
Qed.

Lemma page_of_saved_session
  (now : datetime) (h : session) (w : world) :
  well_formed_session h ->
  (forall name, In name (listdir (chat_histories w)) ->
                endswith name (str ".json") = true ->
                name <> str "chat_" ++ strftime_Ymd_HMS now ++ str ".json" ->
                parses (chat_histories w) name) ->
  let name := str "chat_" ++ strftime_Ymd_HMS now ++ str ".json" in
  fst (previous_chats_page name (world_of (save_chat_history now h w)))
  = (Text (str "### Chat: " ++ name) :: display h, None).
Proof.
  intros Hwf Hothers. cbv zeta. fold (transcript_name now) in *.
  rewrite save_chat_history_unfold. unfold world_of. cbn [snd].
  set (d1 := write_file (chat_histories w) (transcript_name now) (dumps (json_of_session h))).
  set (w1 := set_chat_histories d1 _).
  assert (Hr : read_file d1 (transcript_name now) = Some (dumps (json_of_session h)))
    by apply read_write_same.
  assert (Hall : forall n, In n (listdir (chat_histories w1)) -> is_json n = true ->
                   exists e, parse_file (chat_histories w1) n = Some e).
  { change (chat_histories w1) with d1. intros n Hn Hj.
    destruct (list_eq_dec N.eq_dec n (transcript_name now)) as [->|Hne];
      [rewrite (parse_file_saved _ _ _ Hwf Hr); eauto|].
    unfold d1. rewrite parse_file_other by exact Hne.
    apply parse_file_parses. apply Hothers; [|exact Hj|exact Hne].
    apply In_listdir_write in Hn as [Hn|Hn]; [exact Hn|contradiction]. }
  rewrite (previous_chats_page_found _ w1 _ (json_of_session h) (load_Ok_intro w1 Hall)).
  - now rewrite draw_history_session.
  - apply In_listdir_write. now right.
  - apply transcript_name_is_json.
  - now apply parse_file_saved.
Qed.

(** X11. A saved session is shown back. Selecting the transcript's name on
    the previous chats view right after the save draws the heading with
    that name, then one line for each user or assistant message with the
    message's content, in order, and raises nothing; messages of another
    role are not drawn. The session's texts are made of Unicode scalar
    values and the other .json files of the directory parse. *)
Theorem saved_session_is_shown_back
  (now : datetime) (h : session) (w : world) :
  well_formed_session h ->
  (forall name, In name (listdir (chat_histories w)) ->
                endswith name (str ".json") = true ->
                name <> str "chat_" ++ strftime_Ymd_HMS now ++ str ".json" ->
                parses (chat_histories w) name) ->
  let name := str "chat_" ++ strftime_Ymd_HMS now ++ str ".json" in
  fst (previous_chats_page name (world_of (save_chat_history now h w)))
  = (Text (str "### Chat: " ++ name) :: display h, None).
Proof. exact (page_of_saved_session now h w). Qed.

Lemma display_exchanges (inputs replies : list text) :
  display (exchanges inputs replies)
  = flat_map (fun pr => [Labelled (str "**You:** ") (JString (fst pr));
                         Labelled (str "**AI:** ") (JString (snd pr))])
             (combine inputs replies).
Proof.
  revert replies. induction inputs as [|p inputs IH]; intros [|r replies];
    try reflexivity.
  cbn [exchanges combine flat_map display app]. unfold display in IH.
  now rewrite IH.
Qed.

Lemma well_formed_exchanges (inputs replies : list text) :
  Forall well_formed_text inputs -> Forall well_formed_text replies ->
  well_formed_session (exchanges inputs replies).
Proof.
  intros Hi. revert replies. induction Hi as [|p inputs Hp _ IH];
    intros replies Hr; [constructor|].
  destruct Hr as [|r replies Hr Hrs]; [constructor|].
  cbn [exchanges].
  assert (Hu : well_formed_text (str "user"))
    by (repeat constructor; unfold scalar; cbn; lia).
  assert (Ha : well_formed_text (str "assistant"))
    by (repeat constructor; unfold scalar; cbn; lia).
  constructor; [split; assumption|]. constructor; [split; assumption|]. now apply IH.
Qed.

(** X18. A chat is shown back as it went. When the inputs and the replies
    are made of Unicode scalar values and the other .json files of the
    directory parse, the session made of the inputs and their replies, once
    saved and selected on the previous chats view, is drawn as the heading
    and, for each exchange, the line labelled You with the input and the
    line labelled AI with the reply, and nothing is raised. *)
Theorem chat_is_shown_back
  (now : datetime) (inputs replies : list text) (w : world) :
  Forall well_formed_text inputs -> Forall well_formed_text replies ->
  (forall name, In name (listdir (chat_histories w)) ->
                endswith name (str ".json") = true ->
                name <> str "chat_" ++ strftime_Ymd_HMS now ++ str ".json" ->
                parses (chat_histories w) name) ->
  let name := str "chat_" ++ strftime_Ymd_HMS now ++ str ".json" in
  fst (previous_chats_page name
         (world_of (save_chat_history now (exchanges inputs replies) w)))
  = (Text (str "### Chat: " ++ name)
       :: flat_map (fun pr => [Labelled (str "**You:** ") (JString (fst pr));
                               Labelled (str "**AI:** ") (JString (snd pr))])
                   (combine inputs replies),
     None).
Proof.
  intros Hi Hr Hothers. cbv zeta.
  rewrite (page_of_saved_session now _ w (well_formed_exchanges _ _ Hi Hr) Hothers).
  now rewrite display_exchanges.
Qed.

(** X17. One .json file that does not parse hides every chat:
    [load_chat_histories] raises, and whatever is selected the previous
    chats view draws nothing and ends in that very exception, the world
    being as the load left it. *)
Theorem one_bad_file_hides_every_chat (selected : text) (w : world) (name c : text) :
  read_file (chat_histories w) name = Some c ->
  endswith name (str ".json") = true ->
  loads c = None ->
  exists e,
    value_of (load_chat_histories w) = Raise e
    /\ previous_chats_page selected w
       = (([], Some (Propagated e)), world_of (load_chat_histories w)).
Proof.
  intros Hr Hj Hl. unfold previous_chats_page.
  destruct (load_loop_raise (listdir (chat_histories w)) [] w name) as (e & He).
  - eapply read_file_In; eassumption.
  - exact Hj.
  - eapply parse_file_malformed; eassumption.
  - rewrite load_chat_histories_unfold.
    destruct (load_loop _ _ _) as [[l|e'] w']; simpl in He; [discriminate|].
    exists e'. split; reflexivity.
Qed.

Lemma load_loop_no_json (names : list text) (acc : list history_entry) (w : world) :
  (forall n, In n names -> is_json n = false) ->
  load_loop names acc w = (Ok acc, w).
Proof.
  induction names as [|n rest IH]; intros H; [reflexivity|].
  rewrite load_loop_cons, (H n (or_introl eq_refl)).
  apply IH. intros m Hm. apply H. now right.
Qed.

(** X12. With no file whose name ends in .json, the previous chats view
    writes that no chat histories were found to the sidebar, draws nothing
    else, raises nothing, opens no file and changes nothing. *)
Theorem no_histories_found (selected : text) (w : world) :
  (forall name, In name (listdir (chat_histories w)) ->
                endswith name (str ".json") = false) ->
  previous_chats_page selected w
  = (([SidebarText (str "No chat histories found.")], None), w).
Proof.
  intros H. unfold previous_chats_page.
  rewrite load_chat_histories_unfold, load_loop_no_json by exact H.
  reflexivity.
Qed.

(** X13. A history that is no list of objects ends the view in an
    exception. A list drawn up to its first element that is no object
    shows the messages before it and raises AttributeError; a value that
    cannot be iterated raises TypeError; an object with a member, or a
    string with a character, raises AttributeError at once. *)
Theorem history_that_is_no_list_of_objects
  (h : session) (v : json) (rest : list json) :
  is_object v = false ->
  draw_history (JArray (map json_of_message h ++ v :: rest))
  = (display h, Some AttributeError)
  /\ (py_iter v = None -> draw_history v = ([], Some TypeError))
  /\ (forall k x members, draw_history (JObject ((k, x) :: members))
                          = ([], Some AttributeError))
  /\ (forall c s, draw_history (JString (c :: s)) = ([], Some AttributeError)).
Proof.
  intros Hv. split; [|split; [|split]].
  - unfold draw_history. cbn [py_iter]. rewrite draw_entries_session.
    destruct v; try discriminate; cbn [draw_entries fst snd];
      now rewrite app_nil_r.
  - intros Hi. unfold draw_history. now rewrite Hi.
  - reflexivity.
  - reflexivity.
Qed.

(** X14. A message object without the key content: when its role is user
    or assistant the view raises KeyError after drawing the messages before
    it; with another role, or none, it is skipped and the view draws what
    it draws without it. *)
Theorem message_without_content
  (h : session) (d : list (text * json)) (rest : list json) :
  dict_get d (str "content") = None ->
  let r := dict_get d (str "role") in
  draw_history (JArray (map json_of_message h ++ JObject d :: rest))
  = if equals_str r "user" || equals_str r "assistant"
    then (display h, Some (KeyError (str "content")))
    else draw_history (JArray (map json_of_message h ++ rest)).
Proof.
  intros Hc. cbv zeta. unfold draw_history. cbn [py_iter].
  rewrite !draw_entries_session. cbn [draw_entries]. rewrite Hc.
  destruct (equals_str (dict_get d (str "role")) "user"); cbn [orb fst snd];
    [now rewrite app_nil_r|].
  destruct (equals_str (dict_get d (str "role")) "assistant"); cbn [fst snd];
    [now rewrite app_nil_r|reflexivity].
Qed.

(* ================================================================== *)
(** * A transcript is plain ASCII *)

Lemma hexdigit_ascii (d : N) : d < 16 -> ascii_char (hexdigit d).
Proof.
  intros H. unfold ascii_char, hexdigit. right.
  destruct (N.ltb_spec d 10); lia.
Qed.

Lemma u_escape_ascii (n : N) : n < 65536 -> Forall ascii_char (u_escape n).
Proof.
  intros H. unfold u_escape.
  repeat (apply Forall_cons; [first [right; lia|apply hexdigit_ascii; lia]|]).
  apply Forall_nil.
Qed.

Lemma lor_surrogate (a x : N) : N.lor (a * 1024) (N.land x 1023) < a * 1024 + 1024.
Proof.
  change 1023 with (N.ones 10). rewrite N.land_ones. change (2 ^ 10) with 1024.
  rewrite lor_disjoint by lia. lia.
Qed.

Lemma escape_char_ascii (c : N) : Forall ascii_char (escape_char c).
Proof.
  unfold escape_char.
  destruct (c =? 34); [printable_list|].
  destruct (c =? 92); [printable_list|].
  destruct ((32 <=? c) && (c <=? 126)) eqn:Ep.
  { apply andb_true_iff in Ep as [H1 H2]. apply N.leb_le in H1, H2.
    apply Forall_cons; [right; lia|apply Forall_nil]. }
  destruct (c =? 10); [printable_list|].
  destruct (c =? 13); [printable_list|].
  destruct (c =? 9); [printable_list|].
  destruct (c =? 8); [printable_list|].
  destruct (c =? 12); [printable_list|].
  destruct (N.ltb_spec c 65536); [now apply u_escape_ascii|].
  cbv zeta. apply Forall_app. split; apply u_escape_ascii.
  - pose proof (lor_surrogate 54 (N.shiftr (c - 65536) 10)) as H1.
    change (54 * 1024) with 55296 in H1. lia.
  - pose proof (lor_surrogate 55 (c - 65536)) as H1.
    change (55 * 1024) with 56320 in H1. lia.
Qed.

Lemma escape_ascii (s : text) : Forall ascii_char (escape s).
Proof.
  unfold escape. induction s as [|c s IH]; cbn [flat_map]; [constructor|].
  apply Forall_app. split; [apply escape_char_ascii|exact IH].
Qed.

Lemma newline_indent_ascii (k : nat) : Forall ascii_char (newline_indent k).
Proof.
  unfold newline_indent. constructor; [now left|].
  induction (4 * k)%nat as [|n IH]; cbn [repeat]; constructor; [right; lia|exact IH].
Qed.

Lemma encode_message_ascii (m : message) : Forall ascii_char (encode 1 (json_of_message m)).
Proof.
  rewrite encode_message.
  repeat first [ apply newline_indent_ascii
               | apply escape_ascii
               | apply Forall_nil
               | apply Forall_cons; [right; lia|]
               | apply Forall_app; split ].
Qed.

Lemma items_text_ascii (h : session) : Forall ascii_char (items_text h).
Proof.
  induction h as [|m ms IH]; [constructor|].
  rewrite items_text_cons. apply Forall_app. split; [apply encode_message_ascii|].
  destruct ms as [|m' ms]; [constructor|].
  constructor; [right; lia|]. apply Forall_app. split; [apply newline_indent_ascii|exact IH].
Qed.

(** X15. The file [save_chat_history] writes is plain ASCII whatever the
    session holds: it is there under the transcript's name, and each of
    its characters is a line feed or a printable ASCII character. *)
Theorem transcript_is_ascii (now : datetime) (h : session) (w : world) :
  let name := str "chat_" ++ strftime_Ymd_HMS now ++ str ".json" in
  exists contents,
    read_file (chat_histories (world_of (save_chat_history now h w))) name = Some contents
    /\ Forall ascii_char contents.
Proof.
  cbv zeta. fold (transcript_name now). rewrite save_chat_history_unfold. world_simpl.
  exists (dumps (json_of_session h)). split; [apply read_write_same|].
  destruct h as [|m ms].
  - change (dumps (json_of_session [])) with [91; 93]. printable_list.
  - rewrite dumps_session_cons.
    constructor; [right; lia|]. apply Forall_app. split; [apply newline_indent_ascii|].
    apply Forall_app. split; [apply items_text_ascii|].
    apply Forall_cons; [now left|]. printable_list.
Qed.

(* ================================================================== *)
(** * The further statements at sample data *)

Lemma load_chat_histories_only_json_witness :
  value_of (load_chat_histories
              (set_chat_histories
                 (write_file Sample.tidy (str "notes.txt") (str "[{")) (fresh Sample.tidy)))
  = value_of (load_chat_histories (fresh Sample.tidy))
  /\ opened (world_of (load_chat_histories (fresh Sample.tidy)))
     = [str "chat_histories/chat_20240101_120000.json";
        str "chat_histories/chat_20240102_080000.json"]
  /\ Permutation (map filename Cases.tidy_histories)
       [str "chat_20240101_120000.json"; str "chat_20240102_080000.json"]
  /\ exists l, value_of (load_chat_histories (fresh Sample.tidy)) = Ok l.
Proof.
  destruct (load_chat_histories_only_json (fresh Sample.tidy))
    as (H1 & H2 & H3 & _ & H5).
  split; [apply H5; reflexivity|].
  split.
  { destruct H1 as (read & Ho & _ & _ & Hr).
    rewrite Ho, (Hr Cases.tidy_histories); [reflexivity|vm_compute; reflexivity]. }
  split.
  { apply (H2 Cases.tidy_histories). vm_compute. reflexivity. }
  apply H3. intros n Hn.
  change (In n [str "chat_20240101_120000.json"; str "chat_20240102_080000.json"]) in Hn.
  destruct Hn as [<-|[<-|[]]].
  - split; [reflexivity|].
    exists (dumps (json_of_session Sample.greeting)), (json_of_session Sample.greeting).
    split; [reflexivity|vm_compute; reflexivity].
  - split; [reflexivity|].
    exists (dumps (json_of_session Sample.farewell)), (json_of_session Sample.farewell).
    split; [reflexivity|vm_compute; reflexivity].
Defined.

Lemma save_chat_history_writes_one_file_witness :
  read_file (chat_histories
               (world_of (save_chat_history Sample.clock_a Sample.greeting
                            (fresh Sample.tidy))))
            (str "notes.txt")
  = read_file Sample.tidy (str "notes.txt").
Proof.
  apply (proj1 (save_chat_history_writes_one_file Sample.clock_a Sample.greeting
                  (fresh Sample.tidy))).
  intros H. vm_compute in H. discriminate H.
Defined.

Lemma saves_in_distinct_seconds_witness :
  exists l e1 e2,
    value_of (load_chat_histories
                (world_of (save_chat_history Cases.clock_c Sample.farewell
                   (world_of (save_chat_history Sample.clock_a Sample.greeting
                                (fresh []))))))
    = Ok l
    /\ In e1 l /\ filename e1 = str "chat_20240309_070559.json"
    /\ data e1 = json_of_session Sample.greeting
    /\ In e2 l /\ filename e2 = str "chat_20240309_070600.json"
    /\ data e2 = json_of_session Sample.farewell.
Proof.
  apply (saves_in_distinct_seconds Sample.clock_a Cases.clock_c
           Sample.greeting Sample.farewell (fresh [])).
  - unfold in_range. cbn. lia.
  - unfold in_range. cbn. lia.
  - vm_compute. discriminate.
  - repeat constructor; unfold scalar; cbn; lia.
  - repeat constructor; unfold scalar; cbn; lia.
  - intros name [].
Defined.

Lemma save_keeps_earlier_transcripts_witness :
  exists l',
    value_of ((save_chat_history Sample.clock_a Sample.greeting ;; load_chat_histories)
                (fresh Sample.tidy)) = Ok l'
    /\ In Cases.entry_farewell l' /\ In Cases.entry_greeting l'.
Proof.
  destruct (save_keeps_earlier_transcripts Sample.clock_a Sample.greeting
              (fresh Sample.tidy) Cases.tidy_histories)
    as (l' & Hv & Hkeep & _).
  - repeat constructor; unfold scalar; cbn; lia.
  - vm_compute. reflexivity.
  - exists l'. split; [exact Hv|].
    split; apply Hkeep; try (simpl; auto; fail);
      intros H; vm_compute in H; discriminate H.
Defined.

Lemma load_does_not_depend_on_listing_order_witness :
  value_of (load_chat_histories (fresh Cases.tidy_other_order)) = Ok Cases.tidy_histories.
Proof.
  apply (proj1 (load_does_not_depend_on_listing_order
                  (fresh Sample.tidy) (fresh Cases.tidy_other_order)
                  ltac:(vm_compute;
                        repeat (constructor;
                                [intros H; repeat destruct H as [H|H];
                                 try discriminate H; try contradiction|]);
                        constructor)
                  ltac:(apply Permutation_sym;
                        apply (Permutation_cons_app [_; _] [] _);
                        apply Permutation_refl)
                  Cases.tidy_histories)).
  vm_compute. reflexivity.
Defined.

Lemma load_lists_most_recent_first_witness :
  calendar_key Cases.new_year_noon <= calendar_key Cases.next_morning.
Proof.
  apply (load_lists_most_recent_first (fresh Sample.tidy) Cases.tidy_histories
           [] [] [] Cases.entry_farewell Cases.entry_greeting
           Cases.next_morning Cases.new_year_noon).
  - vm_compute. reflexivity.
  - reflexivity.
  - reflexivity.
  - reflexivity.
  - unfold in_range. cbn. lia.
  - unfold in_range. cbn. lia.
  - cbn. lia.
  - cbn. lia.
Defined.


Lemma build_context_keeps_everything_witness :
  occurs_in (str "hello") (build_context Sample.greeting).
Proof.
  apply (build_context_keeps_everything Sample.greeting
           (assistant_message (str "hello"))).
  simpl. auto.
Defined.

Lemma save_button_saves_the_whole_session_witness :
  read_file (chat_histories
               (world_of (main Sample.llm_hello Cases.asking_and_saving Sample.under_way)))
            (str "chat_20240309_070559.json")
  = Some (dumps (json_of_session
                   (session_of
                      (world_of (main Sample.llm_hello Cases.asking_and_saving
                                   Sample.under_way))))).
Proof.
  apply (save_button_saves_the_whole_session Sample.llm_hello Cases.asking_and_saving
           Sample.under_way Sample.question).
  - reflexivity.
  - reflexivity.
  - discriminate.
  - reflexivity.
Defined.

Lemma nothing_is_saved_without_input_and_button_witness :
  chat_histories (world_of (main Sample.llm_hello Cases.saving_only (fresh Sample.tidy)))
  = Sample.tidy.
Proof.
  apply (nothing_is_saved_without_input_and_button Sample.llm_hello Cases.saving_only
           (fresh Sample.tidy)).
  right. left. reflexivity.
Defined.

Lemma run_without_input_changes_nothing_witness :
  session_of (world_of (main Sample.llm_hello Cases.saving_only Sample.under_way))
  = Sample.greeting.
Proof.
  apply (run_without_input_changes_nothing Sample.llm_hello Cases.saving_only
           Sample.under_way).
  right. reflexivity.
Defined.

Lemma saved_session_is_shown_back_witness :
  fst (previous_chats_page (str "chat_20240309_070559.json")
         (world_of (save_chat_history Sample.clock_a Sample.greeting (fresh Sample.tidy))))
  = ([Text (str "### Chat: chat_20240309_070559.json");
      Labelled (str "**You:** ") (JString (str "hi"));
      Labelled (str "**AI:** ") (JString (str "hello"))], None).
Proof.
  apply (saved_session_is_shown_back Sample.clock_a Sample.greeting (fresh Sample.tidy)).
  - repeat constructor; unfold scalar; cbn; lia.
  - intros name Hin Hj _. cbn in Hin.
    destruct Hin as [<-|[<-|[<-|[]]]].
    + split; [reflexivity|].
      exists (dumps (json_of_session Sample.greeting)), (json_of_session Sample.greeting).
      split; [reflexivity|vm_compute; reflexivity].
    + vm_compute in Hj. discriminate Hj.
    + split; [reflexivity|].
      exists (dumps (json_of_session Sample.farewell)), (json_of_session Sample.farewell).
      split; [reflexivity|vm_compute; reflexivity].
Defined.

Lemma chat_is_shown_back_witness :
  fst (previous_chats_page (str "chat_20240309_070559.json")
         (world_of (save_chat_history Sample.clock_a
                      (exchanges [str "hi"] [str "hello"]) (fresh []))))
  = ([Text (str "### Chat: chat_20240309_070559.json");
      Labelled (str "**You:** ") (JString (str "hi"));
      Labelled (str "**AI:** ") (JString (str "hello"))], None).
Proof.
  apply (chat_is_shown_back Sample.clock_a [str "hi"] [str "hello"] (fresh [])).
  - repeat constructor; unfold scalar; cbn; lia.
  - repeat constructor; unfold scalar; cbn; lia.
  - intros name [].
Defined.

Lemma one_bad_file_hides_every_chat_witness :
  previous_chats_page (str "chat_20240101_120000.json") (fresh Sample.broken)
  = (([], Some (Propagated
                  (JSONDecodeError (str "chat_histories/chat_20240102_080000.json")))),
     world_of (load_chat_histories (fresh Sample.broken))).
Proof.
  destruct (one_bad_file_hides_every_chat (str "chat_20240101_120000.json")
              (fresh Sample.broken) (str "chat_20240102_080000.json") (str "[{"))
    as (e & He & Hp); [reflexivity|reflexivity|reflexivity|].
  rewrite Hp. vm_compute in He. injection He as <-. reflexivity.
Defined.

Lemma no_histories_found_witness :
  previous_chats_page (str "notes.txt") (fresh Cases.only_notes)
  = (([SidebarText (str "No chat histories found.")], None), fresh Cases.only_notes).
Proof.
  apply no_histories_found.
  intros name [<-|[]]. reflexivity.
Defined.

Lemma history_that_is_no_list_of_objects_witness :
  draw_history (JArray (map json_of_message Sample.greeting ++ [JNumber (str "1")]))
  = (display Sample.greeting, Some AttributeError).
Proof.
  apply (proj1 (history_that_is_no_list_of_objects Sample.greeting
                  (JNumber (str "1")) [] eq_refl)).
Defined.

Lemma message_without_content_witness :
  draw_history (JArray (map json_of_message Sample.greeting
                          ++ [JObject [(str "role", JString (str "user"))]]))
  = (display Sample.greeting, Some (KeyError (str "content"))).
Proof.
  apply (message_without_content Sample.greeting
           [(str "role", JString (str "user"))] []).
  reflexivity.
Defined.
